(** * url_shortener: short-path allocation, record store, cache-aside handlers

    A shallow embedding of the Go packages [internal/database],
    [internal/redis] and [internal/handlers].  The SQL table [urls] is a
    list of rows, the Redis keyspace a finite map from keys to JSON values,
    and every Go function that talks to the store, the cache, the clock or
    the random source is a function in a state monad over [World]. *)

From Stdlib Require Import ZArith List Bool Lia Ascii String Sorted.
From stdpp Require Import base strings gmap list.

Local Open Scope string_scope.
Local Open Scope Z_scope.

(** ** Go values *)

(** [time.Time], as a number of seconds. *)
Definition Time := Z.

(** [uuid.UUID], identified with its canonical text ([id.String()]). *)
Definition UUID := string.

Definition uuid_String (id : UUID) : string := id.

(** A Go [error] is observed through [err.Error()] only. *)
Definition error := string.

(** The pair [(value, error)] returned by a Go function; the value is
    meaningful only when the error is nil. *)
Inductive result (A : Type) : Type :=
| Ok (a : A)
| Err (e : error).
Arguments Ok {A} a.
Arguments Err {A} e.

(** [int] on the 64-bit targets the service is built for. *)
Definition int_min : Z := - 2 ^ 63.
Definition int_max : Z := 2 ^ 63 - 1.
Definition wrap_int (z : Z) : Z := (z + 2 ^ 63) mod 2 ^ 64 - 2 ^ 63.

(** ** internal/database/models.go *)

Record URL := mkURL {
  ID : UUID;
  ShortPath : string;
  Destination : string;
  Title : option string;
  Description : option string;
  ImageURL : option string;
  ExpiresAt : option Time;
  CreatedAt : Time;
  UpdatedAt : Time
}.

Record CreateURLRequest := mkCreateURLRequest {
  cShortPath : option string;
  cDestination : string;
  cTitle : option string;
  cDescription : option string;
  cImageURL : option string;
  cExpiresAt : option Time
}.

(** Pointer fields are options; [ExpiresAt **time.Time] is an option of an
    option: [None] is an absent field, [Some None] a pointer to a nil
    pointer (clear the column), [Some (Some t)] a new value. *)
Record UpdateURLRequest := mkUpdateURLRequest {
  uShortPath : option string;
  uDestination : option string;
  uTitle : option string;
  uDescription : option string;
  uImageURL : option string;
  uExpiresAt : option (option Time)
}.

Record ListURLsResponse := mkListURLsResponse {
  URLs : list URL;
  Total : Z;
  Page : Z;
  Limit : Z
}.

(** The zero value of [URL], what [json.Unmarshal] leaves in a fresh
    variable when the document is [null]. *)
Definition zeroURL : URL := mkURL "" "" "" None None None None 0 0.

(** ** The world outside the process *)

(** A bound SET clause of the dynamic UPDATE statement. *)
Inductive assignment :=
| SetShortPath (v : string)
| SetDestination (v : string)
| SetTitle (v : string)
| SetDescription (v : string)
| SetImageURL (v : string)
| SetExpiresAtNull
| SetExpiresAt (v : Time).

(** Statements sent to the database and commands sent to Redis, in the
    order the process issues them. *)
Inductive event :=
| SqlInsert (id : UUID) (shortPath : string)
| SqlSelectByID (id : UUID)
| SqlSelectByShortPath (shortPath : string)
| SqlCount
| SqlSelectPage (limit offset : Z)
| SqlUpdate (id : UUID) (sets : list assignment)
| SqlDelete (id : UUID)
| SqlExists (shortPath : string) (answer : result bool)
| RedisGet (key : string)
| RedisSet (key : string) (value : option URL)
| RedisDel (key : string)
| TemplateExecute.

Record World := mkWorld {
  rows : list URL;                  (* table urls, in insertion order *)
  redis : gmap string (option URL); (* key -> JSON document; None is null *)
  faults : list (option error);     (* fate of the coming external calls *)
  entropy : list nat;               (* crypto/rand *)
  uuids : list UUID;                (* uuid.New() *)
  now : Time;                       (* the clock *)
  drift : list nat;                 (* how far each reading advances it *)
  log : list event
}.

Definition set_rows (r : list URL) (w : World) : World :=
  mkWorld r (redis w) (faults w) (entropy w) (uuids w) (now w) (drift w) (log w).
Definition set_redis (m : gmap string (option URL)) (w : World) : World :=
  mkWorld (rows w) m (faults w) (entropy w) (uuids w) (now w) (drift w) (log w).
Definition set_faults (f : list (option error)) (w : World) : World :=
  mkWorld (rows w) (redis w) f (entropy w) (uuids w) (now w) (drift w) (log w).
Definition set_entropy (e : list nat) (w : World) : World :=
  mkWorld (rows w) (redis w) (faults w) e (uuids w) (now w) (drift w) (log w).
Definition set_uuids (u : list UUID) (w : World) : World :=
  mkWorld (rows w) (redis w) (faults w) (entropy w) u (now w) (drift w) (log w).
Definition set_clock (t : Time) (d : list nat) (w : World) : World :=
  mkWorld (rows w) (redis w) (faults w) (entropy w) (uuids w) t d (log w).
Definition emit (e : event) (w : World) : World :=
  mkWorld (rows w) (redis w) (faults w) (entropy w) (uuids w) (now w) (drift w)
          (log w ++ [e]).

(** ** State monad *)

Definition M (A : Type) : Type := World -> A * World.

Definition ret {A} (a : A) : M A := fun w => (a, w).

Definition bind {A B} (m : M A) (k : A -> M B) : M B :=
  fun w => let (a, w1) := m w in k a w1.

Notation "x <- m ;; k" := (bind m (fun x => k))
  (at level 100, m at next level, right associativity).
Notation "m ;;; k" := (bind m (fun _ => k))
  (at level 100, right associativity).

(** One external call: consumes the head of the fault schedule. *)
Definition call : M (option error) := fun w =>
  match faults w with
  | [] => (None, w)
  | f :: fs => (f, set_faults fs w)
  end.

Definition trace (e : event) : M unit := fun w => (tt, emit e w).

(** [time.Now()] and SQL's [datetime('now')]. *)
Definition clock : M Time := fun w =>
  match drift w with
  | [] => (now w, w)
  | d :: ds => (now w, set_clock (now w + Z.of_nat d) ds w)
  end.

(** [rand.Int(rand.Reader, max)]: a number below [max]. *)
Definition rand_Int (max : nat) : M nat := fun w =>
  match entropy w with
  | [] => (0%nat, w)
  | n :: ns => ((n mod max)%nat, set_entropy ns w)
  end.

Definition nil_uuid : UUID := "00000000-0000-0000-0000-000000000000".

(** [uuid.New()]. *)
Definition uuid_New : M UUID := fun w =>
  match uuids w with
  | [] => (nil_uuid, w)
  | u :: us => (u, set_uuids us w)
  end.

Definition get_rows : M (list URL) := fun w => (rows w, w).
Definition put_rows (r : list URL) : M unit := fun w => (tt, set_rows r w).
Definition get_redis : M (gmap string (option URL)) := fun w => (redis w, w).
Definition put_redis (m : gmap string (option URL)) : M unit :=
  fun w => (tt, set_redis m w).

(** ** Strings *)

(** [strings.Contains]. *)
Fixpoint strings_Contains (s substr : string) : bool :=
  String.prefix substr s ||
  match s with
  | EmptyString => false
  | String _ s' => strings_Contains s' substr
  end.

(** [strings.ToLower] on one byte.  Bytes above 127 are left alone; the
    handlers only rely on the result for strings made of ASCII letters,
    digits and hyphens. *)
Definition lower_byte (c : ascii) : ascii :=
  let n := nat_of_ascii c in
  if ((65 <=? n) && (n <=? 90))%nat then ascii_of_nat (n + 32) else c.

Fixpoint strings_ToLower (s : string) : string :=
  match s with
  | EmptyString => EmptyString
  | String c s' => String (lower_byte c) (strings_ToLower s')
  end.

(** ** The SQL engine (PostgreSQL through lib/pq)

    Statements are modelled by their relational meaning on the table:
    placeholders are bound in the order the arguments are appended, and
    [datetime('now')] is the current timestamp. *)
Module Sql.

(** [err.Error()] of a unique-index violation (SQLSTATE 23505); the
    constraint name comes between double quotes (character 34). *)
Definition unique_violation (constraint : string) : error :=
  "pq: duplicate key value violates unique constraint " +:+
  String "034" (constraint +:+ String "034" "").

Definition negative_offset : error := "pq: OFFSET must not be negative".
Definition negative_limit : error := "pq: LIMIT must not be negative".

Definition has_id (id : UUID) (u : URL) : bool := bool_decide (ID u = id).
Definition has_short_path (p : string) (u : URL) : bool :=
  bool_decide (ShortPath u = p).

(** [expires_at IS NULL OR expires_at > datetime('now')] *)
Definition live (t : Time) (u : URL) : bool :=
  match ExpiresAt u with
  | None => true
  | Some e => t <? e
  end.

(** [SELECT ... FROM urls WHERE id = $1] *)
Definition select_by_id (tbl : list URL) (id : UUID) : option URL :=
  find (has_id id) tbl.

(** [SELECT ... FROM urls WHERE short_path = $1 AND (expires_at IS NULL OR
    expires_at > datetime('now'))] *)
Definition select_by_short_path (tbl : list URL) (p : string) (t : Time)
  : option URL :=
  find (fun u => has_short_path p u && live t u) tbl.

(** [SELECT EXISTS(SELECT 1 FROM urls WHERE short_path = $1)] *)
Definition exists_short_path (tbl : list URL) (p : string) : bool :=
  existsb (has_short_path p) tbl.

(** [ORDER BY created_at DESC] *)
Fixpoint insert_desc (u : URL) (l : list URL) : list URL :=
  match l with
  | [] => [u]
  | v :: l' =>
      if CreatedAt v <? CreatedAt u then u :: l else v :: insert_desc u l'
  end.

Definition order_by_created_at_desc (tbl : list URL) : list URL :=
  fold_right insert_desc [] tbl.

(** [... LIMIT $1 OFFSET $2] *)
Definition select_page (tbl : list URL) (limit offset : Z) : result (list URL) :=
  if limit <? 0 then Err negative_limit
  else if offset <? 0 then Err negative_offset
  else Ok (take (Z.to_nat limit)
             (drop (Z.to_nat offset) (order_by_created_at_desc tbl))).

(** One SET clause applied to a row. *)
Definition assign (a : assignment) (u : URL) : URL :=
  match a with
  | SetShortPath v =>
      mkURL (ID u) v (Destination u) (Title u) (Description u) (ImageURL u)
            (ExpiresAt u) (CreatedAt u) (UpdatedAt u)
  | SetDestination v =>
      mkURL (ID u) (ShortPath u) v (Title u) (Description u) (ImageURL u)
            (ExpiresAt u) (CreatedAt u) (UpdatedAt u)
  | SetTitle v =>
      mkURL (ID u) (ShortPath u) (Destination u) (Some v) (Description u)
            (ImageURL u) (ExpiresAt u) (CreatedAt u) (UpdatedAt u)
  | SetDescription v =>
      mkURL (ID u) (ShortPath u) (Destination u) (Title u) (Some v)
            (ImageURL u) (ExpiresAt u) (CreatedAt u) (UpdatedAt u)
  | SetImageURL v =>
      mkURL (ID u) (ShortPath u) (Destination u) (Title u) (Description u)
            (Some v) (ExpiresAt u) (CreatedAt u) (UpdatedAt u)
  | SetExpiresAtNull =>
      mkURL (ID u) (ShortPath u) (Destination u) (Title u) (Description u)
            (ImageURL u) None (CreatedAt u) (UpdatedAt u)
  | SetExpiresAt v =>
      mkURL (ID u) (ShortPath u) (Destination u) (Title u) (Description u)
            (ImageURL u) (Some v) (CreatedAt u) (UpdatedAt u)
  end.

(** [SET updated_at = datetime('now'), <sets>] on one row. *)
Definition set_row (t : Time) (sets : list assignment) (u : URL) : URL :=
  fold_left (fun r a => assign a r) sets
    (mkURL (ID u) (ShortPath u) (Destination u) (Title u) (Description u)
           (ImageURL u) (ExpiresAt u) (CreatedAt u) t).

Definition replace_row (id : UUID) (new : URL) (tbl : list URL) : list URL :=
  map (fun u => if has_id id u then new else u) tbl.

(** [UPDATE urls SET ... WHERE id = $n RETURNING ...]: no row when the id is
    unknown; the unique index on short_path rejects a row that would
    collide with another one. *)
Definition update (tbl : list URL) (t : Time) (id : UUID)
    (sets : list assignment) : result (option URL * list URL) :=
  match select_by_id tbl id with
  | None => Ok (None, tbl)
  | Some old =>
      let new := set_row t sets old in
      if existsb (fun u => negb (has_id id u) && has_short_path (ShortPath new) u) tbl
      then Err (unique_violation "urls_short_path_key")
      else Ok (Some new, replace_row id new tbl)
  end.

(** [DELETE FROM urls WHERE id = $1]: rows affected and the new table. *)
Definition delete (tbl : list URL) (id : UUID) : Z * list URL :=
  (Z.of_nat (length (filter (fun u => has_id id u = true) tbl)),
   filter (fun u => has_id id u = false) tbl).

(** [INSERT INTO urls (...) VALUES (...) RETURNING ...]; created_at and
    updated_at take the column default. *)
Definition insert (tbl : list URL) (t : Time) (id : UUID) (shortPath : string)
    (req : CreateURLRequest) : result (URL * list URL) :=
  if existsb (has_id id) tbl then Err (unique_violation "urls_pkey")
  else if existsb (has_short_path shortPath) tbl
  then Err (unique_violation "urls_short_path_key")
  else
    let url := mkURL id shortPath (cDestination req) (cTitle req)
                     (cDescription req) (cImageURL req) (cExpiresAt req) t t in
    Ok (url, (tbl ++ [url])%list).

End Sql.

(** ** package database *)
Module database.

Definition charset : string :=
  "abcdefghijklmnopqrstuvwxyzABCDEFGHIJKLMNOPQRSTUVWXYZ0123456789".
Definition minLength : nat := 6.
Definition maxAttempts : nat := 10.

Definition charset_at (i : nat) : ascii :=
  match String.get i charset with
  | Some c => c
  | None => "a"%char
  end.

(** [for i := range result { ... result[i] = charset[randomIndex.Int64()] }] *)
Fixpoint generateRandomString (length : nat) : M string :=
  match length with
  | O => ret EmptyString
  | S n =>
      randomIndex <- rand_Int (String.length charset) ;;
      rest <- generateRandomString n ;;
      ret (String (charset_at randomIndex) rest)
  end.

(** Returns [(exists, err)]; [exists] keeps its zero value when the scan
    fails. *)
Definition shortPathExists (shortPath : string) : M (bool * option error) :=
  f <- call ;;
  tbl <- get_rows ;;
  let r := match f with
           | Some e => (false, Some e)
           | None => (Sql.exists_short_path tbl shortPath, None)
           end in
  trace (SqlExists shortPath
           (match r with (_, Some e) => Err e | (b, None) => Ok b end)) ;;;
  ret r.

Definition exhausted : error :=
  "failed to generate unique short path after 10 attempts".

(** The loop [for attempt := 0; attempt < maxAttempts; attempt++], by
    recursion on the number of iterations that remain. *)
Fixpoint generateUniqueShortPath_from (remaining attempt : nat)
  : M (result string) :=
  match remaining with
  | O => ret (Err exhausted)
  | S remaining' =>
      let length := (minLength + attempt)%nat in
      shortPath <- generateRandomString length ;;
      r <- shortPathExists shortPath ;;
      match r with
      | (_, Some err) => ret (Err err)
      | (exists_, None) =>
          if negb exists_ then ret (Ok shortPath)
          else generateUniqueShortPath_from remaining' (S attempt)
      end
  end.

Definition generateUniqueShortPath : M (result string) :=
  generateUniqueShortPath_from maxAttempts 0.

Definition CreateURL (req : CreateURLRequest) : M (result URL) :=
  p <- match cShortPath req with
       | None => generateUniqueShortPath
       | Some s => if bool_decide (s = "") then generateUniqueShortPath
                   else ret (Ok s)
       end ;;
  match p with
  | Err e => ret (Err ("failed to generate short path: " +:+ e))
  | Ok shortPath =>
      id <- uuid_New ;;
      trace (SqlInsert id shortPath) ;;;
      f <- call ;;
      match f with
      | Some e => ret (Err ("failed to create URL: " +:+ e))
      | None =>
          tbl <- get_rows ;;
          t <- clock ;;
          match Sql.insert tbl t id shortPath req with
          | Err e => ret (Err ("failed to create URL: " +:+ e))
          | Ok (url, tbl') => put_rows tbl' ;;; ret (Ok url)
          end
      end
  end.

(** [sql.ErrNoRows] becomes [(nil, nil)], here [Ok None]. *)
Definition GetURLByID (id : UUID) : M (result (option URL)) :=
  trace (SqlSelectByID id) ;;;
  f <- call ;;
  match f with
  | Some e => ret (Err ("failed to get URL: " +:+ e))
  | None => tbl <- get_rows ;; ret (Ok (Sql.select_by_id tbl id))
  end.

Definition GetURLByShortPath (shortPath : string) : M (result (option URL)) :=
  trace (SqlSelectByShortPath shortPath) ;;;
  f <- call ;;
  match f with
  | Some e => ret (Err ("failed to get URL by short path: " +:+ e))
  | None =>
      tbl <- get_rows ;;
      t <- clock ;;
      ret (Ok (Sql.select_by_short_path tbl shortPath t))
  end.

Definition ListURLs (page limit : Z) : M (result ListURLsResponse) :=
  let offset := wrap_int (wrap_int (page - 1) * limit) in
  trace SqlCount ;;;
  f <- call ;;
  match f with
  | Some e => ret (Err ("failed to count URLs: " +:+ e))
  | None =>
      tbl <- get_rows ;;
      let total := Z.of_nat (length tbl) in
      trace (SqlSelectPage limit offset) ;;;
      f <- call ;;
      match f with
      | Some e => ret (Err ("failed to list URLs: " +:+ e))
      | None =>
          match Sql.select_page tbl limit offset with
          | Err e => ret (Err ("failed to list URLs: " +:+ e))
          | Ok urls => ret (Ok (mkListURLsResponse urls total page limit))
          end
      end
  end.

Definition opt_clause {A} (c : A -> assignment) (o : option A)
  : list assignment :=
  match o with
  | Some v => [c v]
  | None => []
  end.

(** The SET clauses appended to the dynamic query, in source order. *)
Definition update_sets (req : UpdateURLRequest) : list assignment :=
  (opt_clause SetShortPath (uShortPath req) ++
   opt_clause SetDestination (uDestination req) ++
   opt_clause SetTitle (uTitle req) ++
   opt_clause SetDescription (uDescription req) ++
   opt_clause SetImageURL (uImageURL req) ++
   match uExpiresAt req with
   | None => []
   | Some None => [SetExpiresAtNull]
   | Some (Some t) => [SetExpiresAt t]
   end)%list.

Definition UpdateURL (id : UUID) (req : UpdateURLRequest)
  : M (result (option URL)) :=
  let sets := update_sets req in
  trace (SqlUpdate id sets) ;;;
  f <- call ;;
  match f with
  | Some e => ret (Err ("failed to update URL: " +:+ e))
  | None =>
      tbl <- get_rows ;;
      t <- clock ;;
      match Sql.update tbl t id sets with
      | Err e => ret (Err ("failed to update URL: " +:+ e))
      | Ok (None, _) => ret (Ok None)
      | Ok (Some url, tbl') => put_rows tbl' ;;; ret (Ok (Some url))
      end
  end.

Definition DeleteURL (id : UUID) : M (option error) :=
  trace (SqlDelete id) ;;;
  f <- call ;;
  match f with
  | Some e => ret (Some ("failed to delete URL: " +:+ e))
  | None =>
      tbl <- get_rows ;;
      let '(rowsAffected, tbl') := Sql.delete tbl id in
      put_rows tbl' ;;;
      if rowsAffected =? 0 then ret (Some "URL not found") else ret None
  end.

End database.

(** ** package redis (the cache client)

    A value is the JSON document of a record; encoding and decoding are
    taken to be inverse of each other, so the keyspace holds the record
    itself, or [None] for the document [null].  Entries do not age during
    a request; what expired before it is covered by the initial keyspace
    being arbitrary. *)
Module redis.

(** [fmt.Sprintf("url:%s", shortPath)] and [fmt.Sprintf("url_id:%s", id)] *)
Definition url_key (shortPath : string) : string := "url:" +:+ shortPath.
Definition url_id_key (id : string) : string := "url_id:" +:+ id.

(** GET then [json.Unmarshal] into a fresh [URL]; [redis.Nil] is a miss. *)
Definition get_json (key : string) : M (result (option URL)) :=
  trace (RedisGet key) ;;;
  f <- call ;;
  match f with
  | Some e => ret (Err ("failed to get from Redis: " +:+ e))
  | None =>
      m <- get_redis ;;
      match m !! key with
      | None => ret (Ok None)
      | Some None => ret (Ok (Some zeroURL))
      | Some (Some url) => ret (Ok (Some url))
      end
  end.

(** [json.Marshal] of the pointer (a nil pointer gives [null]) then SET. *)
Definition set_json (key : string) (url : option URL) : M (option error) :=
  trace (RedisSet key url) ;;;
  f <- call ;;
  match f with
  | Some e => ret (Some ("failed to set in Redis: " +:+ e))
  | None => m <- get_redis ;; put_redis (<[key := url]> m) ;;; ret None
  end.

Definition del (key : string) : M (option error) :=
  trace (RedisDel key) ;;;
  f <- call ;;
  match f with
  | Some e => ret (Some ("failed to delete from Redis: " +:+ e))
  | None => m <- get_redis ;; put_redis (delete key m) ;;; ret None
  end.

Definition GetURL (shortPath : string) := get_json (url_key shortPath).
Definition SetURL (shortPath : string) (url : option URL) :=
  set_json (url_key shortPath) url.
Definition DeleteURL (shortPath : string) := del (url_key shortPath).
Definition GetURLByID (id : string) := get_json (url_id_key id).
Definition SetURLByID (id : string) (url : option URL) :=
  set_json (url_id_key id) url.
Definition DeleteURLByID (id : string) := del (url_id_key id).

End redis.

(** ** strconv.Atoi *)

Definition digit_of (c : ascii) : option Z :=
  let n := nat_of_ascii c in
  if ((48 <=? n) && (n <=? 57))%nat then Some (Z.of_nat n - 48) else None.

Fixpoint digits_value (s : string) (acc : Z) : option Z :=
  match s with
  | EmptyString => Some acc
  | String c s' =>
      match digit_of c with
      | Some d => digits_value s' (acc * 10 + d)
      | None => None
      end
  end.

(** The digits after the optional sign: the value is 0 on a syntax error
    and the nearest [int] on a range error. *)
Definition parse_digits (neg : bool) (body : string) : Z * option error :=
  match body with
  | EmptyString => (0, Some "invalid syntax")
  | _ =>
      match digits_value body 0 with
      | None => (0, Some "invalid syntax")
      | Some v =>
          let n := if neg then - v else v in
          if n <? int_min then (int_min, Some "value out of range")
          else if int_max <? n then (int_max, Some "value out of range")
          else (n, None)
      end
  end.

(** The handlers drop the error and keep the value. *)
Definition strconv_Atoi (s : string) : Z * option error :=
  let '(neg, body) :=
    match s with
    | String "-"%char r => (true, r)
    | String "+"%char r => (false, r)
    | _ => (false, s)
    end in
  parse_digits neg body.

(** ** package handlers *)
Module handlers.

Definition StatusOK : Z := 200.
Definition StatusCreated : Z := 201.
Definition StatusNoContent : Z := 204.
Definition StatusBadRequest : Z := 400.
Definition StatusNotFound : Z := 404.
Definition StatusConflict : Z := 409.
Definition StatusInternalServerError : Z := 500.

(** What a handler leaves in the response writer, or the run-time panic
    that ends it. *)
Inductive Response :=
| JSONError (code : Z) (msg : string)
| JSONURL (code : Z) (url : URL)
| JSONList (code : Z) (r : ListURLsResponse)
| Status (code : Z)
| HTMLPage (title description imageURL : option string)
           (destination twitterDomain : string)
| Panic.

Definition status_of (r : Response) : option Z :=
  match r with
  | JSONError c _ | JSONURL c _ | JSONList c _ | Status c => Some c
  | HTMLPage _ _ _ _ _ => Some StatusOK
  | Panic => None
  end.

Definition reservedPaths : list string :=
  [ "api"; "health"; "urls";
    "swagger"; "docs"; "doc"; "api-docs"; "openapi";
    "admin"; "login"; "logout"; "register"; "signup"; "signin"; "dashboard";
    "profile"; "settings"; "help"; "support"; "contact"; "about"; "privacy";
    "terms"; "faq";
    "get"; "post"; "put"; "patch"; "delete"; "head"; "options";
    "css"; "js"; "png"; "jpg"; "jpeg"; "gif"; "svg"; "ico"; "pdf"; "txt";
    "xml"; "json" ].

Definition isReservedPath (shortPath : string) : bool :=
  let lowerPath := strings_ToLower shortPath in
  existsb (fun reserved => String.eqb lowerPath reserved) reservedPaths.

(** The test applied to each character.  The source ranges over runes; a
    rune outside ASCII is encoded by bytes above 127, none of which passes
    the test, so ranging over bytes gives the same verdict. *)
Definition allowed_char (c : ascii) : bool :=
  let n := nat_of_ascii c in
  (((97 <=? n) && (n <=? 122)) ||
   ((65 <=? n) && (n <=? 90)) ||
   ((48 <=? n) && (n <=? 57)) ||
   (n =? 45))%nat.

Fixpoint all_allowed (s : string) : bool :=
  match s with
  | EmptyString => true
  | String c s' => if negb (allowed_char c) then false else all_allowed s'
  end.

Definition isValidShortPath (shortPath : string) : bool :=
  if ((String.length shortPath <? 1) || (255 <? String.length shortPath))%nat
  then false
  else if negb (all_allowed shortPath) then false
  else if isReservedPath shortPath then false
  else true.

(** The block "Validate short path if provided", repeated verbatim in
    CreateURL, UpdateURL and PatchURL: the response that ends the handler,
    if any. *)
Definition validateShortPath (shortPath : option string) : option Response :=
  match shortPath with
  | None => None
  | Some s =>
      if negb (bool_decide (s = "")) then
        if negb (isValidShortPath s) then
          if isReservedPath s
          then Some (JSONError StatusBadRequest
                       "short path is reserved and cannot be used")
          else Some (JSONError StatusBadRequest "invalid short path format")
        else None
      else None
  end.

(** [body] is the outcome of [c.ShouldBindJSON(&req)]. *)
Definition CreateURL (body : result CreateURLRequest) : M Response :=
  match body with
  | Err e => ret (JSONError StatusBadRequest e)
  | Ok req =>
      match validateShortPath (cShortPath req) with
      | Some resp => ret resp
      | None =>
          r <- database.CreateURL req ;;
          match r with
          | Err e =>
              if strings_Contains e "unique constraint"
              then ret (JSONError StatusConflict "short path already exists")
              else ret (JSONError StatusInternalServerError
                          "failed to create URL")
          | Ok url =>
              redis.SetURL (ShortPath url) (Some url) ;;;
              redis.SetURLByID (uuid_String (ID url)) (Some url) ;;;
              ret (JSONURL StatusCreated url)
          end
      end
  end.

(** [id] is the outcome of [uuid.Parse(c.Param("id"))]. *)
Definition GetURL (id : result UUID) : M Response :=
  match id with
  | Err _ => ret (JSONError StatusBadRequest "invalid URL ID")
  | Ok id =>
      c <- redis.GetURLByID (uuid_String id) ;;
      match c with
      | Ok (Some url) => ret (JSONURL StatusOK url)
      | Ok None | Err _ =>
          r <- database.GetURLByID id ;;
          match r with
          | Err _ =>
              ret (JSONError StatusInternalServerError "failed to get URL")
          | Ok None => ret (JSONError StatusNotFound "URL not found")
          | Ok (Some url) =>
              redis.SetURLByID (uuid_String id) (Some url) ;;;
              redis.SetURL (ShortPath url) (Some url) ;;;
              ret (JSONURL StatusOK url)
          end
      end
  end.

(** [page] and [limit] are the raw query values, [None] when the key is
    missing ([c.DefaultQuery]). *)
Definition ListURLs (page limit : option string) : M Response :=
  let page := fst (strconv_Atoi (default "1" page)) in
  let limit := fst (strconv_Atoi (default "10" limit)) in
  let page := if page <? 1 then 1 else page in
  let limit := if (limit <? 1) || (100 <? limit) then 10 else limit in
  r <- database.ListURLs page limit ;;
  match r with
  | Err _ => ret (JSONError StatusInternalServerError "failed to list URLs")
  | Ok result => ret (JSONList StatusOK result)
  end.

Definition UpdateURL (id : result UUID) (body : result UpdateURLRequest)
  : M Response :=
  match id with
  | Err _ => ret (JSONError StatusBadRequest "invalid URL ID")
  | Ok id =>
      match body with
      | Err e => ret (JSONError StatusBadRequest e)
      | Ok req =>
          match validateShortPath (uShortPath req) with
          | Some resp => ret resp
          | None =>
              r <- database.UpdateURL id req ;;
              match r with
              | Err _ =>
                  ret (JSONError StatusInternalServerError
                         "failed to update URL")
              | Ok None => ret (JSONError StatusNotFound "URL not found")
              | Ok (Some url) =>
                  redis.SetURLByID (uuid_String id) (Some url) ;;;
                  redis.SetURL (ShortPath url) (Some url) ;;;
                  ret (JSONURL StatusOK url)
              end
          end
      end
  end.

(** After the error check [url] is used as it is: [SetURLByID] receives the
    pointer, and [url.ShortPath] dereferences it. *)
Definition PatchURL (id : result UUID) (body : result UpdateURLRequest)
  : M Response :=
  match id with
  | Err _ => ret (JSONError StatusBadRequest "invalid URL ID")
  | Ok id =>
      match body with
      | Err e => ret (JSONError StatusBadRequest e)
      | Ok req =>
          match validateShortPath (uShortPath req) with
          | Some resp => ret resp
          | None =>
              r <- database.UpdateURL id req ;;
              match r with
              | Err e =>
                  if strings_Contains e "not found"
                  then ret (JSONError StatusNotFound "URL not found")
                  else if strings_Contains e "unique constraint"
                  then ret (JSONError StatusConflict
                              "short path already exists")
                  else ret (JSONError StatusInternalServerError
                              "failed to update URL")
              | Ok url =>
                  redis.SetURLByID (uuid_String id) url ;;;
                  match url with
                  | None => ret Panic
                  | Some u =>
                      redis.SetURL (ShortPath u) url ;;;
                      ret (JSONURL StatusOK u)
                  end
              end
          end
      end
  end.

Definition DeleteURL (id : result UUID) : M Response :=
  match id with
  | Err _ => ret (JSONError StatusBadRequest "invalid URL ID")
  | Ok id =>
      r <- database.GetURLByID id ;;
      match r with
      | Err _ => ret (JSONError StatusInternalServerError "failed to get URL")
      | Ok None => ret (JSONError StatusNotFound "URL not found")
      | Ok (Some url) =>
          e <- database.DeleteURL id ;;
          match e with
          | Some _ =>
              ret (JSONError StatusInternalServerError "failed to delete URL")
          | None =>
              redis.DeleteURLByID (uuid_String id) ;;;
              redis.DeleteURL (ShortPath url) ;;;
              ret (Status StatusNoContent)
          end
      end
  end.

(** First half of Redirect, up to the end of the cache-miss block: either
    the response that ends the handler or the record in [url]. *)
Definition Redirect_lookup (shortPath : string) : M (Response + URL) :=
  if bool_decide (shortPath = "")
  then ret (inl (JSONError StatusNotFound "URL not found"))
  else
    c <- redis.GetURL shortPath ;;
    match c with
    | Ok (Some url) => ret (inr url)
    | Ok None | Err _ =>
        r <- database.GetURLByShortPath shortPath ;;
        match r with
        | Err _ =>
            ret (inl (JSONError StatusInternalServerError "failed to get URL"))
        | Ok None =>
            ret (inl (JSONError StatusNotFound "URL not found or expired"))
        | Ok (Some url) =>
            redis.SetURL shortPath (Some url) ;;;
            ret (inr url)
        end
    end.

(** [h.tmpl.Execute(c.Writer, templateData)] and its error branch. *)
Definition Redirect_render (twitterDomain : string) (url : URL) : M Response :=
  trace TemplateExecute ;;;
  f <- call ;;
  match f with
  | Some _ =>
      ret (JSONError StatusInternalServerError "failed to render template")
  | None =>
      ret (HTMLPage (Title url) (Description url) (ImageURL url)
             (Destination url) twitterDomain)
  end.

(** Second half of Redirect: the expiry check
    [url.ExpiresAt != nil && url.ExpiresAt.Before(time.Now())], then the
    page. *)
Definition Redirect_serve (twitterDomain : string) (url : URL) : M Response :=
  match ExpiresAt url with
  | Some e =>
      t <- clock ;;
      if e <? t then ret (JSONError StatusNotFound "URL has expired")
      else Redirect_render twitterDomain url
  | None => Redirect_render twitterDomain url
  end.

Definition Redirect (twitterDomain shortPath : string) : M Response :=
  l <- Redirect_lookup shortPath ;;
  match l with
  | inl resp => ret resp
  | inr url => Redirect_serve twitterDomain url
  end.

End handlers.

(** ** package database, the SQLite-compatible operations for testing

    The statements are those of [GetURLByShortPath] and [UpdateURL] with
    [?] placeholders; the update has no RETURNING clause and is followed
    by a read. *)
Module database_sqlite.

(** [err.Error()] of SQLite when the unique index on short_path rejects a
    row. *)
Definition unique_violation : error :=
  "UNIQUE constraint failed: urls.short_path".

Definition GetURLByShortPathSQLite (shortPath : string)
  : M (result (option URL)) :=
  trace (SqlSelectByShortPath shortPath) ;;;
  f <- call ;;
  match f with
  | Some e => ret (Err ("failed to get URL by short path: " +:+ e))
  | None =>
      tbl <- get_rows ;;
      t <- clock ;;
      ret (Ok (Sql.select_by_short_path tbl shortPath t))
  end.

Definition UpdateURLSQLite (id : UUID) (req : UpdateURLRequest)
  : M (result (option URL)) :=
  let sets := database.update_sets req in
  trace (SqlUpdate id sets) ;;;
  f <- call ;;
  match f with
  | Some e => ret (Err ("failed to update URL: " +:+ e))
  | None =>
      tbl <- get_rows ;;
      t <- clock ;;
      match Sql.update tbl t id sets with
      | Err _ => ret (Err ("failed to update URL: " +:+ unique_violation))
      | Ok (_, tbl') => put_rows tbl' ;;; database.GetURLByID id
      end
  end.

End database_sqlite.

(** ** Vocabulary of the statements *)

(** The existence queries of a resolver run, as they appear in the log:
    each probe is a candidate and the store's answer. *)
Definition probe_events (probes : list (string * result bool)) : list event :=
  map (fun p => SqlExists (fst p) (snd p)) probes.

(** The key constraints of the table: [id ... PRIMARY KEY] and
    [short_path ... UNIQUE NOT NULL]. *)
Definition unique_keys (tbl : list URL) : Prop :=
  NoDup (map ID tbl) /\ NoDup (map ShortPath tbl).

(** The fate of the next external call, and the world once it is consumed;
    the world after one reading of the clock. *)
Definition next_fault (w : World) : option error := hd None (faults w).
Definition after_call (w : World) : World := set_faults (tl (faults w)) w.
Definition after_clock (w : World) : World :=
  set_clock (now w + Z.of_nat (hd 0%nat (drift w))) (tl (drift w)) w.

(** The characters of a short path: [a-z], [A-Z], [0-9] and [-]. *)
Definition in_charset (c : ascii) : Prop :=
  (nat_of_ascii "a" <= nat_of_ascii c <= nat_of_ascii "z")%nat \/
  (nat_of_ascii "A" <= nat_of_ascii c <= nat_of_ascii "Z")%nat \/
  (nat_of_ascii "0" <= nat_of_ascii c <= nat_of_ascii "9")%nat \/
  c = "-"%char.

(** ** Sample data *)
Module Sample.

Definition id1 : UUID := "550e8400-e29b-41d4-a716-446655440000".
Definition id2 : UUID := "6ba7b810-9dad-11d1-80b4-00c04fd430c8".
Definition id3 : UUID := "6ba7b811-9dad-11d1-80b4-00c04fd430c8".

(** A record that expired at 90. *)
Definition rec1 : URL :=
  mkURL id1 "abc123" "https://example.com" (Some "My Website") None None
        (Some 90) 10 10.

(** A record without expiration. *)
Definition rec2 : URL :=
  mkURL id2 "promo" "https://example.org" None None None None 20 20.

(** A record that expires at 150. *)
Definition rec3 : URL :=
  mkURL id3 "soon" "https://example.net" None None None (Some 150) 30 30.

(** A healthy deployment at time 100: the table holds the three records,
    the cache is empty, no call fails. *)
Definition world : World :=
  mkWorld [rec1; rec2; rec3] ∅ [] [] [] 100 [] [].

(** The same with [rec1] still cached under its short path. *)
Definition world_cached : World :=
  mkWorld [rec1; rec2; rec3] {[ redis.url_key "abc123" := Some rec1 ]}
          [] [] [] 100 [] [].

(** The same with a clock that has moved to 200 by its second reading. *)
Definition world_late : World :=
  mkWorld [rec1; rec2; rec3] ∅ [] [] [] 100 [100%nat] [].

(** Every generated candidate is taken: the random source returns index 0
    and the table holds the strings of six to fifteen letters a. *)
Definition taken (n : nat) : URL :=
  mkURL ("00000000-0000-4000-8000-0000000000" +:+
           String (ascii_of_nat (48 + n / 10))
             (String (ascii_of_nat (48 + n mod 10)) ""))
        (string_of_list_ascii (repeat "a"%char n))
        "https://example.com" None None None None 0 0.

Definition world_full : World :=
  mkWorld (map taken (seq 6 10)) ∅ [] [] [] 100 [] [].

Definition title_only : UpdateURLRequest :=
  mkUpdateURLRequest None None (Some "New title") None None None.


Definition take_promo : UpdateURLRequest :=
  mkUpdateURLRequest (Some "promo") None None None None None.

Definition empty_path : UpdateURLRequest :=
  mkUpdateURLRequest (Some "") None None None None None.

Definition create_promo : CreateURLRequest :=
  mkCreateURLRequest (Some "promo") "https://example.com" None None None None.

Definition unknown_id : UUID := "00000000-0000-4000-8000-000000000001".

End Sample.


(** ** More sample data *)
Module Sample2.

(** A create request without short path, and one with a free short path. *)
Definition create_auto : CreateURLRequest :=
  mkCreateURLRequest None "https://example.com" None None None None.

Definition create_fresh : CreateURLRequest :=
  mkCreateURLRequest (Some "fresh-1") "https://example.com" (Some "Fresh")
    None None None.


Definition rename_promo : UpdateURLRequest :=
  mkUpdateURLRequest (Some "sale") None None None None None.


End Sample2.

(** ** Invariants of the table *)

(** A computation preserves a property of the table when the property
    holds of the rows it leaves whenever it held of the rows it found. *)
Definition preserves {A} (P : list URL -> Prop) (m : M A) : Prop :=
  forall w, P (rows w) -> P (rows (snd (m w))).


(** The order of a listing: [ORDER BY created_at DESC]. *)
Definition newer_first (a b : URL) : Prop := CreatedAt b <= CreatedAt a.

(** * Properties *)

(** ** The uniqueness resolver *)
Section Resolver.
Import database.

Lemma rand_Int_run max w :
  exists i w', rand_Int max w = (i, w') /\
    log w' = log w /\ rows w' = rows w /\ faults w' = faults w.
Proof.
  unfold rand_Int. destruct (entropy w); eexists _, _; (split; [reflexivity|]);
    now cbn.
Qed.

Lemma generateRandomString_run n w :
  exists s w', generateRandomString n w = (s, w') /\
    String.length s = n /\
    log w' = log w /\ rows w' = rows w /\ faults w' = faults w.
Proof.
  revert w. induction n as [|n IH]; intros w.
  - exists EmptyString, w. now cbn.
  - cbn [generateRandomString]. unfold bind.
    destruct (rand_Int_run (String.length charset) w)
      as (i & w1 & -> & H1 & H2 & H3).
    destruct (IH w1) as (s & w2 & -> & Hs & I1 & I2 & I3).
    eexists _, _. split; [reflexivity|]. cbn.
    repeat split; congruence.
Qed.

Lemma shortPathExists_run p w :
  exists (a : result bool) (w' : World),
    shortPathExists p w =
      (match a with Ok b => (b, None) | Err e => (false, Some e) end, w') /\
    log w' = (log w ++ [SqlExists p a])%list /\
    rows w' = rows w /\
    (forall b, a = Ok b -> b = Sql.exists_short_path (rows w) p).
Proof.
  unfold shortPathExists, bind, call, get_rows, trace, ret.
  destruct (faults w) as [|[e|] fs].
  - eexists (Ok _), _. split; [reflexivity|]. cbn. repeat split.
    intros b [= <-]. reflexivity.
  - exists (Err e). eexists. split; [reflexivity|]. cbn. repeat split.
    intros b [=].
  - eexists (Ok _), _. split; [reflexivity|]. cbn. repeat split.
    intros b [= <-]. reflexivity.
Qed.

Lemma generateUniqueShortPath_from_spec remaining attempt w :
  exists (res : result string) (w' : World)
         (probes : list (string * result bool)),
    generateUniqueShortPath_from remaining attempt w = (res, w') /\
    log w' = (log w ++ probe_events probes)%list /\
    rows w' = rows w /\
    (length probes <= remaining)%nat /\
    (forall i c a, probes !! i = Some (c, a) ->
       String.length c = (minLength + attempt + i)%nat) /\
    (forall i c a, probes !! i = Some (c, a) ->
       (S i < length probes)%nat -> a = Ok true) /\
    (forall c b, In (c, Ok b) probes ->
       b = Sql.exists_short_path (rows w) c) /\
    match res with
    | Ok s => last probes = Some (s, Ok false)
    | Err e =>
        (exists c, last probes = Some (c, Err e)) \/
        (e = exhausted /\ length probes = remaining /\
         forall c a, In (c, a) probes -> a = Ok true)
    end.
Proof.
  revert attempt w.
  induction remaining as [|remaining IH]; intros attempt w.
  - exists (Err exhausted), w, []. cbn. rewrite app_nil_r.
    repeat split; try easy.
    right. repeat split. intros c a [].
  - cbn [generateUniqueShortPath_from]. unfold bind at 1.
    destruct (generateRandomString_run (minLength + attempt) w)
      as (p & w1 & -> & Hlen & Hlog1 & Hrows1 & _).
    unfold bind at 1.
    destruct (shortPathExists_run p w1)
      as (a & w2 & -> & Hlog2 & Hrows2 & Hans).
    rewrite Hlog1 in Hlog2. rewrite Hrows1 in Hrows2, Hans.
    unfold minLength in *.
    destruct a as [[|]|e]; cbn [negb].
    + (* collision: next attempt, one character longer *)
      destruct (IH (S attempt) w2)
        as (res & w3 & probes & -> & Hlog & Hrows & Hn & Hlens & Hcoll
            & Hstore & Hres).
      exists res, w3, ((p, Ok true) :: probes).
      split; [reflexivity|].
      split. { rewrite Hlog, Hlog2. cbn. now rewrite <- app_assoc. }
      split. { congruence. }
      split. { cbn. lia. }
      split. { intros [|i] c a; cbn.
               - intros [= <- <-]. lia.
               - intros H. rewrite (Hlens _ _ _ H). lia. }
      split. { intros [|i] c a; cbn.
               - now intros [= <- <-].
               - intros H Hi. apply (Hcoll _ _ _ H). lia. }
      split. { intros c b [[= <- <-]|Hin]; [now apply Hans|].
               rewrite <- Hrows2. now apply Hstore. }
      destruct res as [s|e].
      * destruct probes; [discriminate|]. exact Hres.
      * destruct Hres as [[c Hc]|(-> & Hl & Hall)].
        -- left. exists c. destruct probes; [discriminate|]. exact Hc.
        -- right. repeat split; [cbn; lia|].
           intros c a [[= <- <-]|Hin]; [reflexivity|]. now apply (Hall c).
    + (* free: the candidate is returned *)
      exists (Ok p), w2, [(p, Ok false)].
      split; [reflexivity|]. cbn.
      repeat split; try easy; try lia.
      * intros [|i] c a; cbn; [intros [= <- <-]; lia | now destruct i].
      * intros c b [[= <- <-]|[]]. now apply Hans.
    + (* the query failed *)
      exists (Err e), w2, [(p, Err e)].
      split; [reflexivity|]. cbn.
      repeat split; try easy; try lia.
      * intros [|i] c a; cbn; [intros [= <- <-]; lia | now destruct i].
      * intros c b [[=]|[]].
      * left. now exists p.
Qed.

Lemma lengths_NoDup (probes : list (string * result bool)) (base : nat) :
  (forall i c a, probes !! i = Some (c, a) ->
     String.length c = (base + i)%nat) ->
  NoDup (map (fun p => String.length (fst p)) probes).
Proof.
  intros Hlens. apply NoDup_alt. intros i j n Hi Hj.
  rewrite list_lookup_fmap in Hi, Hj.
  destruct (probes !! i) as [[ci ai]|] eqn:Ei; [|discriminate].
  destruct (probes !! j) as [[cj aj]|] eqn:Ej; [|discriminate].
  cbn in Hi, Hj. injection Hi as <-. injection Hj as Hj.
  rewrite (Hlens _ _ _ Ei), (Hlens _ _ _ Ej) in Hj. lia.
Qed.

(** C1. Whatever the store answers, attempt [i] of the resolver probes one
    candidate of length [6 + i], so no length is tried twice; every probe
    before the last one was answered "exists"; an [Ok s] result is the
    last probe, which the store reported absent; an error is either the
    failure of the last existence query or exhaustion after exactly 10
    probes, the last of length 15; and when every probe collides the
    result is that exhaustion error. *)
Theorem generateUniqueShortPath_attempts (w : World) :
  exists (res : result string) (w' : World)
         (probes : list (string * result bool)),
    generateUniqueShortPath w = (res, w') /\
    log w' = (log w ++ probe_events probes)%list /\
    (length probes <= 10)%nat /\
    (forall i c a, probes !! i = Some (c, a) ->
       String.length c = (6 + i)%nat /\
       ((S i < length probes)%nat -> a = Ok true) /\
       (forall b, a = Ok b -> b = Sql.exists_short_path (rows w) c)) /\
    NoDup (map (fun p => String.length (fst p)) probes) /\
    match res with
    | Ok s => last probes = Some (s, Ok false)
    | Err e =>
        (exists c, last probes = Some (c, Err e)) \/
        (e = exhausted /\ length probes = 10%nat /\
         exists c, last probes = Some (c, Ok true) /\
                   String.length c = 15%nat)
    end /\
    ((forall c a, In (c, a) probes -> a = Ok true) ->
     res = Err exhausted /\ length probes = 10%nat).
Proof.
  destruct (generateUniqueShortPath_from_spec maxAttempts 0 w)
    as (res & w' & probes & Hrun & Hlog & _ & Hn & Hlens & Hcoll & Hstore
        & Hres).
  unfold minLength, maxAttempts in *.
  exists res, w', probes.
  split; [exact Hrun|]. split; [exact Hlog|]. split; [exact Hn|].
  split.
  { intros i c a Hi. split; [rewrite (Hlens _ _ _ Hi); lia|].
    split; [now apply (Hcoll _ _ _ Hi)|].
    intros b ->. apply Hstore. apply list_elem_of_In.
    now apply list_elem_of_lookup_2 with i. }
  split.
  { apply lengths_NoDup with (6 + 0)%nat. exact Hlens. }
  split.
  - destruct res as [s|e]; [exact Hres|].
    destruct Hres as [Hq|(-> & Hl & Hall)]; [now left|right].
    repeat split; [exact Hl|].
    assert (H9 : is_Some (probes !! 9%nat)) by (apply lookup_lt_is_Some; lia).
    destruct H9 as [[c a] H9]. exists c.
    assert (a = Ok true) as ->.
    { apply (Hall c). apply list_elem_of_In.
      now apply list_elem_of_lookup_2 with 9%nat. }
    split; [|rewrite (Hlens _ _ _ H9); lia].
    rewrite last_lookup, Hl. exact H9.
  - intros Hall. destruct res as [s|e].
    + apply last_Some in Hres as [l' ->].
      specialize (Hall s (Ok false)). rewrite in_app_iff in Hall.
      discriminate Hall. right. now left.
    + destruct Hres as [[c Hc]|(-> & Hl & _)]; [|now split].
      apply last_Some in Hc as [l' ->].
      specialize (Hall c (Err e)). rewrite in_app_iff in Hall.
      discriminate Hall. right. now left.
Qed.

(** Two runs: the first candidate is taken and the second is free; every
    candidate is taken. *)
Example resolver_second_attempt :
  database.generateUniqueShortPath
    (set_rows [Sample.taken 6] Sample.world) =
  (Ok "aaaaaaa",
   emit (SqlExists "aaaaaaa" (Ok false))
     (emit (SqlExists "aaaaaa" (Ok true))
        (set_rows [Sample.taken 6] Sample.world))).
Proof. reflexivity. Qed.

Example resolver_exhausted :
  fst (database.generateUniqueShortPath Sample.world_full)
    = Err database.exhausted /\
  map (fun e => match e with
                | SqlExists p (Ok true) => String.length p
                | _ => 0%nat
                end)
      (log (snd (database.generateUniqueShortPath Sample.world_full)))
    = seq 6 10.
Proof. vm_compute. split; reflexivity. Qed.

End Resolver.


(** ** The record store *)
Section Store.

Lemma find_has_id tbl id u :
  Sql.select_by_id tbl id = Some u -> In u tbl /\ ID u = id.
Proof.
  unfold Sql.select_by_id. intros H. apply find_some in H as [Hin Hid].
  split; [exact Hin|]. unfold Sql.has_id in Hid.
  now apply bool_decide_eq_true in Hid.
Qed.


Lemma select_replace_row tbl id old new :
  Sql.select_by_id tbl id = Some old -> ID new = id ->
  Sql.select_by_id (Sql.replace_row id new tbl) id = Some new.
Proof.
  unfold Sql.select_by_id, Sql.replace_row. intros Hold Hnew.
  induction tbl as [|u tbl IH]; [discriminate|].
  cbn in *. destruct (Sql.has_id id u) eqn:E.
  - unfold Sql.has_id at 1. now rewrite bool_decide_eq_true_2.
  - rewrite E. now apply IH.
Qed.

Lemma replace_row_others tbl id new u :
  In u tbl -> ID u <> id -> In u (Sql.replace_row id new tbl).
Proof.
  unfold Sql.replace_row. intros Hin Hne. apply in_map_iff.
  exists u. split; [|exact Hin].
  unfold Sql.has_id. now rewrite bool_decide_eq_false_2.
Qed.

Lemma update_spec tbl t id sets old :
  Sql.select_by_id tbl id = Some old ->
  match Sql.update tbl t id sets with
  | Err _ => True
  | Ok (None, _) => False
  | Ok (Some new, tbl') =>
      new = Sql.set_row t sets old /\
      Sql.select_by_id tbl' id = Some new /\
      (forall u, In u tbl -> ID u <> id -> In u tbl')
  end /\
  ((forall u, In u tbl -> ID u <> id ->
      ShortPath u <> ShortPath (Sql.set_row t sets old)) ->
   exists tbl', Sql.update tbl t id sets
                = Ok (Some (Sql.set_row t sets old), tbl')).
Proof.
  intros Hold. destruct (find_has_id _ _ _ Hold) as [Hin Hid].
  assert (Hnew : ID (Sql.set_row t sets old) = id).
  { unfold Sql.set_row.
    set (r0 := mkURL _ _ _ _ _ _ _ _ _).
    assert (H0 : ID r0 = id) by exact Hid. clearbody r0.
    revert r0 H0. induction sets as [|a sets IH]; intros r0 H0; [exact H0|].
    cbn. apply IH. now destruct a. }
  unfold Sql.update. rewrite Hold.
  destruct (existsb _ tbl) eqn:Ex.
  - split; [exact I|]. intros Hfree. exfalso.
    apply existsb_exists in Ex as (u & Hu & Hc).
    apply andb_true_iff in Hc as [Hn Hp].
    apply (Hfree u Hu).
    + unfold Sql.has_id in Hn. apply negb_true_iff in Hn.
      now apply bool_decide_eq_false in Hn.
    + unfold Sql.has_short_path in Hp. now apply bool_decide_eq_true in Hp.
  - split; [|intros _; eauto].
    split; [reflexivity|]. split.
    + now apply select_replace_row with old.
    + intros u. apply replace_row_others.
Qed.



Example UpdateURL_title_only :
  fst (database.UpdateURL Sample.id1 Sample.title_only Sample.world) =
    Ok (Some (mkURL Sample.id1 "abc123" "https://example.com"
                (Some "New title") None None (Some 90) 10 100)).
Proof. reflexivity. Qed.

(** *** The key constraints are an invariant of the store *)

Lemma existsb_false_not_in {B} `{EqDecision B} (f : URL -> B) (b : B) tbl :
  existsb (fun u => bool_decide (f u = b)) tbl = false -> ~ In b (map f tbl).
Proof.
  intros Hex Hin. apply in_map_iff in Hin as (u & Hu & Hin).
  assert (existsb (fun u => bool_decide (f u = b)) tbl = true).
  { apply existsb_exists. exists u. split; [exact Hin|].
    now apply bool_decide_eq_true_2. }
  congruence.
Qed.

Lemma NoDup_snoc {B} (l : list B) (b : B) :
  NoDup l -> ~ In b l -> NoDup (l ++ [b]).
Proof.
  intros Hnd Hnot. apply NoDup_app. split; [exact Hnd|]. split.
  - intros x Hx Hb. apply list_elem_of_singleton in Hb as ->.
    apply Hnot. now apply list_elem_of_In.
  - apply NoDup_singleton.
Qed.

Lemma insert_unique_keys tbl t id shortPath req url tbl' :
  unique_keys tbl ->
  Sql.insert tbl t id shortPath req = Ok (url, tbl') ->
  unique_keys tbl'.
Proof.
  intros [Hids Hpaths]. unfold Sql.insert.
  destruct (existsb (Sql.has_id id) tbl) eqn:Eid; [discriminate|].
  destruct (existsb (Sql.has_short_path shortPath) tbl) eqn:Esp;
    [discriminate|].
  intros [= <- <-]. unfold unique_keys. rewrite !map_app. cbn. split.
  - apply NoDup_snoc; [exact Hids|]. now apply existsb_false_not_in.
  - apply NoDup_snoc; [exact Hpaths|]. now apply existsb_false_not_in.
Qed.

Lemma replace_row_ids tbl id new :
  ID new = id -> map ID (Sql.replace_row id new tbl) = map ID tbl.
Proof.
  intros Hnew. unfold Sql.replace_row. rewrite map_map. apply map_ext.
  intros u. unfold Sql.has_id. case_bool_decide; congruence.
Qed.

Lemma replace_row_absent tbl id new :
  ~ In id (map ID tbl) -> Sql.replace_row id new tbl = tbl.
Proof.
  intros Hnot. unfold Sql.replace_row. rewrite <- (map_id tbl) at 2.
  apply map_ext_in. intros u Hu. unfold Sql.has_id.
  case_bool_decide as E; [|reflexivity].
  exfalso. apply Hnot. rewrite <- E. now apply in_map.
Qed.

Lemma replace_row_paths tbl id new :
  NoDup (map ID tbl) -> NoDup (map ShortPath tbl) ->
  (forall u, In u tbl -> ID u <> id -> ShortPath u <> ShortPath new) ->
  NoDup (map ShortPath (Sql.replace_row id new tbl)).
Proof.
  induction tbl as [|a tbl IH]; [intros; constructor|].
  cbn [map]. intros Hids Hpaths Hfree.
  apply NoDup_cons in Hids as [Ha Hids].
  apply NoDup_cons in Hpaths as [Hpa Hpaths].
  unfold Sql.replace_row. cbn [map]. fold (Sql.replace_row id new tbl).
  unfold Sql.has_id at 1. case_bool_decide as E.
  - rewrite replace_row_absent.
    + apply NoDup_cons. split; [|exact Hpaths].
      intros Hin. apply list_elem_of_In, in_map_iff in Hin as (u & Hu & Hin).
      apply (Hfree u); [now right| |exact Hu].
      intros Hid. apply Ha. apply list_elem_of_In. rewrite E, <- Hid.
      now apply in_map.
    + intros Hin. apply Ha. apply list_elem_of_In. now rewrite E.
  - apply NoDup_cons. split.
    + intros Hin. apply list_elem_of_In, in_map_iff in Hin as (u & Hu & Hin).
      unfold Sql.replace_row in Hin. apply in_map_iff in Hin as (v & Hv & Hin).
      destruct (Sql.has_id id v).
      * subst u. apply (Hfree a); [now left|exact E|now symmetry].
      * subst u. apply Hpa. apply list_elem_of_In. rewrite <- Hu.
        now apply in_map.
    + apply IH; [exact Hids|exact Hpaths|].
      intros u Hu. apply Hfree. now right.
Qed.

Lemma update_unique_keys tbl t id sets o tbl' :
  unique_keys tbl ->
  Sql.update tbl t id sets = Ok (o, tbl') ->
  unique_keys tbl'.
Proof.
  intros [Hids Hpaths]. unfold Sql.update.
  destruct (Sql.select_by_id tbl id) as [old|] eqn:Eold;
    [|intros [= <- <-]; now split].
  destruct (existsb _ tbl) eqn:Ex; [discriminate|].
  intros [= <- <-].
  destruct (update_spec tbl t id sets old Eold) as [Hres _].
  unfold Sql.update in Hres. rewrite Eold, Ex in Hres.
  destruct Hres as (_ & Hsel & _).
  apply find_has_id in Hsel as [_ Hnew].
  split.
  - now rewrite replace_row_ids.
  - apply replace_row_paths; [exact Hids|exact Hpaths|].
    intros u Hu Hid Hsp.
    assert (existsb (fun u => negb (Sql.has_id id u) &&
              Sql.has_short_path (ShortPath (Sql.set_row t sets old)) u) tbl
            = true); [|congruence].
    apply existsb_exists. exists u. split; [exact Hu|].
    unfold Sql.has_id, Sql.has_short_path.
    rewrite bool_decide_eq_false_2 by exact Hid.
    now rewrite bool_decide_eq_true_2.
Qed.

Lemma delete_unique_keys tbl id :
  unique_keys tbl -> unique_keys (snd (Sql.delete tbl id)).
Proof.
  intros [Hids Hpaths]. unfold Sql.delete. cbn [snd]. split.
  - apply sublist_NoDup with (map ID tbl); [exact Hids|].
    apply fmap_sublist, sublist_filter.
  - apply sublist_NoDup with (map ShortPath tbl); [exact Hpaths|].
    apply fmap_sublist, sublist_filter.
Qed.

Lemma NoDup_map_inj {A B} (f : A -> B) (l : list A) (x y : A) :
  NoDup (map f l) -> In x l -> In y l -> f x = f y -> x = y.
Proof.
  induction l as [|a l IH]; [intros _ []|].
  cbn. intros Hnd [->|Hx] [->|Hy] Hf; try reflexivity.
  - apply NoDup_cons in Hnd as [Hnot _]. exfalso. apply Hnot.
    apply list_elem_of_In. rewrite Hf. now apply in_map.
  - apply NoDup_cons in Hnd as [Hnot _]. exfalso. apply Hnot.
    apply list_elem_of_In. rewrite <- Hf. now apply in_map.
  - apply NoDup_cons in Hnd as [_ Hnd]. now apply IH.
Qed.



(** A record that has not expired is returned by both lookups. *)
Example live_record_lookup :
  fst (database.GetURLByShortPath "soon" Sample.world) = Ok (Some Sample.rec3) /\
  fst (database.GetURLByID Sample.id3 Sample.world) = Ok (Some Sample.rec3).
Proof. split; reflexivity. Qed.

End Store.

(** ** External calls, one at a time *)

Ltac simpl_world := cbn [rows redis faults entropy uuids now drift log emit
  set_faults set_redis set_rows set_clock after_call after_clock next_fault
  hd tl].

Ltac run_call w :=
  destruct w as [tbl rd fs en us t dr lg];
  unfold bind, trace, call, clock, get_rows, put_rows, get_redis, put_redis,
    ret;
  simpl_world.

Section Calls.

Lemma get_json_eq key w :
  redis.get_json key w =
    (match next_fault w with
     | Some e => Err ("failed to get from Redis: " +:+ e)
     | None =>
         match redis w !! key with
         | None => Ok None
         | Some None => Ok (Some zeroURL)
         | Some (Some url) => Ok (Some url)
         end
     end,
     after_call (emit (RedisGet key) w)).
Proof.
  unfold redis.get_json. run_call w.
  destruct fs as [|[e|] fs]; simpl_world; [|reflexivity|];
    destruct (rd !! key) as [[u|]|]; reflexivity.
Qed.

Lemma set_json_eq key v w :
  redis.set_json key v w =
    match next_fault w with
    | Some e =>
        (Some ("failed to set in Redis: " +:+ e),
         after_call (emit (RedisSet key v) w))
    | None =>
        (None,
         set_redis (<[key := v]> (redis w))
           (after_call (emit (RedisSet key v) w)))
    end.
Proof.
  unfold redis.set_json. run_call w.
  destruct fs as [|[e|] fs]; reflexivity.
Qed.

Lemma del_eq key w :
  redis.del key w =
    match next_fault w with
    | Some e =>
        (Some ("failed to delete from Redis: " +:+ e),
         after_call (emit (RedisDel key) w))
    | None =>
        (None,
         set_redis (delete key (redis w))
           (after_call (emit (RedisDel key) w)))
    end.
Proof.
  unfold redis.del. run_call w.
  destruct fs as [|[e|] fs]; reflexivity.
Qed.

Lemma clock_eq w : clock w = (now w, after_clock w).
Proof.
  destruct w as [tbl rd fs en us t dr lg]. unfold clock, after_clock.
  simpl_world.
  destruct dr as [|d ds]; simpl_world; [|reflexivity].
  cbn [Z.of_nat]. now rewrite Z.add_0_r.
Qed.

Lemma GetURLByID_eq id w :
  database.GetURLByID id w =
    (match next_fault w with
     | Some e => Err ("failed to get URL: " +:+ e)
     | None => Ok (Sql.select_by_id (rows w) id)
     end,
     after_call (emit (SqlSelectByID id) w)).
Proof.
  unfold database.GetURLByID. run_call w.
  destruct fs as [|[e|] fs]; reflexivity.
Qed.

Lemma GetURLByShortPath_eq p w :
  database.GetURLByShortPath p w =
    match next_fault w with
    | Some e =>
        (Err ("failed to get URL by short path: " +:+ e),
         after_call (emit (SqlSelectByShortPath p) w))
    | None =>
        (Ok (Sql.select_by_short_path (rows w) p (now w)),
         after_clock (after_call (emit (SqlSelectByShortPath p) w)))
    end.
Proof.
  unfold database.GetURLByShortPath. run_call w. unfold after_clock.
  simpl_world.
  destruct fs as [|[e|] fs]; destruct dr as [|d ds]; simpl_world;
    cbn [Z.of_nat]; rewrite ?Z.add_0_r; reflexivity.
Qed.

Lemma DeleteURL_eq id w :
  database.DeleteURL id w =
    match next_fault w with
    | Some e =>
        (Some ("failed to delete URL: " +:+ e),
         after_call (emit (SqlDelete id) w))
    | None =>
        (if fst (Sql.delete (rows w) id) =? 0 then Some "URL not found"
         else None,
         set_rows (snd (Sql.delete (rows w) id))
           (after_call (emit (SqlDelete id) w)))
    end.
Proof.
  unfold database.DeleteURL. run_call w.
  destruct fs as [|[e|] fs]; simpl_world; [|reflexivity|];
    unfold Sql.delete; cbn [fst snd]; unfold bind, put_rows, ret;
    now destruct (_ =? 0).
Qed.

Lemma UpdateURL_eq id req w :
  database.UpdateURL id req w =
    match next_fault w with
    | Some e =>
        (Err ("failed to update URL: " +:+ e),
         after_call (emit (SqlUpdate id (database.update_sets req)) w))
    | None =>
        let w1 :=
          after_clock
            (after_call (emit (SqlUpdate id (database.update_sets req)) w)) in
        match Sql.update (rows w) (now w) id (database.update_sets req) with
        | Err e => (Err ("failed to update URL: " +:+ e), w1)
        | Ok (None, _) => (Ok None, w1)
        | Ok (Some url, tbl') => (Ok (Some url), set_rows tbl' w1)
        end
    end.
Proof.
  unfold database.UpdateURL. run_call w. unfold after_clock.
  simpl_world.
  destruct fs as [|[e|] fs]; destruct dr as [|d ds]; simpl_world;
    cbn [Z.of_nat]; rewrite ?Z.add_0_r; try reflexivity;
    now destruct (Sql.update _ _ _ _) as [[[?|] ?]|?].
Qed.

End Calls.

(** ** Handlers *)
Section Handlers.

Lemma url_keys_disjoint (shortPath id : string) :
  redis.url_key shortPath <> redis.url_id_key id.
Proof. unfold redis.url_key, redis.url_id_key. cbn. intros [=]. Qed.

Lemma select_after_delete tbl id :
  Sql.select_by_id (snd (Sql.delete tbl id)) id = None.
Proof.
  unfold Sql.delete, Sql.select_by_id. cbn [snd].
  destruct (find _ _) as [u|] eqn:Ef; [|reflexivity].
  apply find_some in Ef as [Hin Hid].
  apply list_elem_of_In, list_elem_of_filter in Hin as [Hno _]. congruence.
Qed.

Lemma delete_affects tbl id u :
  Sql.select_by_id tbl id = Some u -> fst (Sql.delete tbl id) <> 0.
Proof.
  intros Hsel. apply find_some in Hsel as [Hin Hid].
  unfold Sql.delete. cbn [fst].
  assert (Hf : u ∈ filter (fun v => Sql.has_id id v = true) tbl).
  { apply list_elem_of_filter. split; [exact Hid|].
    now apply list_elem_of_In. }
  destruct (filter _ tbl); [inversion Hf|]. cbn [length]. lia.
Qed.


Lemma Redirect_render_eq td url w :
  handlers.Redirect_render td url w =
    (match next_fault w with
     | Some _ =>
         handlers.JSONError handlers.StatusInternalServerError
           "failed to render template"
     | None =>
         handlers.HTMLPage (Title url) (Description url) (ImageURL url)
           (Destination url) td
     end,
     after_call (emit TemplateExecute w)).
Proof.
  unfold handlers.Redirect_render. run_call w.
  destruct fs as [|[e|] fs]; reflexivity.
Qed.






(** C6. When the record the redirect has looked up, from the cache or from
    the store, has an expires_at earlier than the time read for the check,
    the redirect answers not-found ("URL has expired") and stops there:
    the template is not executed. *)
Theorem Redirect_expired (twitterDomain shortPath : string) (w w1 : World)
    (url : URL) (e : Time) :
  handlers.Redirect_lookup shortPath w = (inr url, w1) ->
  ExpiresAt url = Some e ->
  e < now w1 ->
  handlers.Redirect twitterDomain shortPath w =
    (handlers.JSONError handlers.StatusNotFound "URL has expired",
     after_clock w1).
Proof.
  intros Hlook He Hpast. unfold handlers.Redirect, bind. rewrite Hlook.
  unfold handlers.Redirect_serve, bind. rewrite He, clock_eq.
  now rewrite (proj2 (Z.ltb_lt e (now w1)) Hpast).
Qed.

Lemma Redirect_expired_witness :
  (handlers.Redirect_lookup "abc123" Sample.world_cached
     = (inr Sample.rec1,
        after_call (emit (RedisGet (redis.url_key "abc123"))
                      Sample.world_cached)) /\
   ExpiresAt Sample.rec1 = Some 90 /\
   90 < 100) /\
  fst (handlers.Redirect "example.com" "abc123" Sample.world_cached) =
    handlers.JSONError handlers.StatusNotFound "URL has expired".
Proof.
  split; [repeat split; (reflexivity || lia)|].
  rewrite (Redirect_expired "example.com" "abc123" Sample.world_cached
             (after_call (emit (RedisGet (redis.url_key "abc123"))
                            Sample.world_cached))
             Sample.rec1 90); [reflexivity|reflexivity|reflexivity|].
  cbn. lia.
Defined.

(** The record can also come from the store: it was live when the query
    ran and has expired when the handler reads the clock. *)
Example Redirect_expired_from_store :
  fst (handlers.Redirect_lookup "soon" Sample.world_late) = inr Sample.rec3 /\
  fst (handlers.Redirect "example.com" "soon" Sample.world_late) =
    handlers.JSONError handlers.StatusNotFound "URL has expired".
Proof. vm_compute. repeat split; reflexivity. Qed.

(** *** Store errors seen by the write handlers *)

Lemma strings_Contains_app_r (pre s substr : string) :
  strings_Contains s substr = true ->
  strings_Contains (pre +:+ s) substr = true.
Proof.
  intros H. induction pre as [|c pre IH]; [exact H|].
  change (strings_Contains (String c (pre +:+ s)) substr = true).
  cbn [strings_Contains]. rewrite IH. apply orb_true_r.
Qed.

Lemma unique_violation_recognised (pre constraint : string) :
  strings_Contains (pre +:+ Sql.unique_violation constraint)
    "unique constraint" = true.
Proof. apply strings_Contains_app_r. reflexivity. Qed.

Lemma CreateURL_conflict w req w1 constraint :
  handlers.validateShortPath (cShortPath req) = None ->
  database.CreateURL req w =
    (Err ("failed to create URL: " +:+ Sql.unique_violation constraint), w1) ->
  handlers.CreateURL (Ok req) w =
    (handlers.JSONError handlers.StatusConflict "short path already exists",
     w1).
Proof.
  intros Hv Hrun. unfold handlers.CreateURL, bind. rewrite Hv, Hrun.
  now rewrite unique_violation_recognised.
Qed.

Lemma UpdateURL_store_error w id req w1 e :
  handlers.validateShortPath (uShortPath req) = None ->
  database.UpdateURL id req w = (Err e, w1) ->
  handlers.UpdateURL (Ok id) (Ok req) w =
    (handlers.JSONError handlers.StatusInternalServerError
       "failed to update URL", w1).
Proof.
  intros Hv Hrun. unfold handlers.UpdateURL, bind. now rewrite Hv, Hrun.
Qed.

Lemma PatchURL_conflict w id req w1 :
  handlers.validateShortPath (uShortPath req) = None ->
  database.UpdateURL id req w =
    (Err ("failed to update URL: " +:+
          Sql.unique_violation "urls_short_path_key"), w1) ->
  handlers.PatchURL (Ok id) (Ok req) w =
    (handlers.JSONError handlers.StatusConflict "short path already exists",
     w1).
Proof.
  intros Hv Hrun. unfold handlers.PatchURL, bind. now rewrite Hv, Hrun.
Qed.

(** C7, at the failing input.  Giving record [id1] the short_path of
    another record makes the store fail on the unique index.  Create and
    patch answer 409 for such a failure; update answers 500, the very
    response it gives when the database is unreachable. *)
Lemma UpdateURL_conflict_is_server_error :
  fst (database.UpdateURL Sample.id1 Sample.take_promo Sample.world) =
    Err ("failed to update URL: " +:+
         Sql.unique_violation "urls_short_path_key") /\
  fst (handlers.CreateURL (Ok Sample.create_promo) Sample.world) =
    handlers.JSONError handlers.StatusConflict "short path already exists" /\
  fst (handlers.PatchURL (Ok Sample.id1) (Ok Sample.take_promo) Sample.world) =
    handlers.JSONError handlers.StatusConflict "short path already exists" /\
  fst (handlers.UpdateURL (Ok Sample.id1) (Ok Sample.take_promo) Sample.world) =
    handlers.JSONError handlers.StatusInternalServerError
      "failed to update URL" /\
  fst (handlers.UpdateURL (Ok Sample.id1) (Ok Sample.take_promo)
         (set_faults [Some "dial tcp: connection refused"] Sample.world)) =
    handlers.JSONError handlers.StatusInternalServerError
      "failed to update URL".
Proof. vm_compute. repeat split; reflexivity. Qed.

Lemma UpdateURL_unknown_id w id req :
  handlers.validateShortPath (uShortPath req) = None ->
  next_fault w = None ->
  Sql.select_by_id (rows w) id = None ->
  fst (handlers.UpdateURL (Ok id) (Ok req) w) =
    handlers.JSONError handlers.StatusNotFound "URL not found" /\
  fst (handlers.PatchURL (Ok id) (Ok req) w) = handlers.Panic.
Proof.
  intros Hv Hf Hsel.
  unfold handlers.UpdateURL, handlers.PatchURL, bind.
  rewrite Hv, UpdateURL_eq, Hf. clear Hf.
  cbv zeta. unfold Sql.update. rewrite Hsel.
  split; [reflexivity|].
  unfold redis.SetURLByID. rewrite set_json_eq.
  destruct (next_fault _); reflexivity.
Qed.

(** C8, at the failing input.  For a well-formed id that no record has,
    the store update returns neither a row nor an error.  Update answers
    404.  Patch looks for an error only: it caches [null] under the id
    and then dereferences the nil record. *)
Lemma PatchURL_unknown_id_panics :
  Sql.select_by_id (rows Sample.world) Sample.unknown_id = None /\
  fst (database.UpdateURL Sample.unknown_id Sample.title_only Sample.world)
    = Ok None /\
  fst (handlers.UpdateURL (Ok Sample.unknown_id) (Ok Sample.title_only)
         Sample.world) =
    handlers.JSONError handlers.StatusNotFound "URL not found" /\
  fst (handlers.PatchURL (Ok Sample.unknown_id) (Ok Sample.title_only)
         Sample.world) = handlers.Panic /\
  redis (snd (handlers.PatchURL (Ok Sample.unknown_id) (Ok Sample.title_only)
                Sample.world))
    !! redis.url_id_key (uuid_String Sample.unknown_id) = Some None.
Proof. vm_compute. repeat split; reflexivity. Qed.

(** *** Short-path validation *)

Lemma allowed_char_spec (c : ascii) :
  handlers.allowed_char c = true <-> in_charset c.
Proof.
  unfold handlers.allowed_char, in_charset.
  change (nat_of_ascii "a") with 97%nat. change (nat_of_ascii "z") with 122%nat.
  change (nat_of_ascii "A") with 65%nat. change (nat_of_ascii "Z") with 90%nat.
  change (nat_of_ascii "0") with 48%nat. change (nat_of_ascii "9") with 57%nat.
  rewrite !orb_true_iff, !andb_true_iff, !Nat.leb_le, Nat.eqb_eq.
  assert (Hdash : nat_of_ascii c = 45%nat <-> c = "-"%char).
  { split; [|now intros ->].
    intros H. rewrite <- (ascii_nat_embedding c), H. reflexivity. }
  rewrite Hdash. tauto.
Qed.

Lemma all_allowed_spec (s : string) :
  handlers.all_allowed s = true <->
  forall c, In c (list_ascii_of_string s) -> in_charset c.
Proof.
  induction s as [|a s IH]; cbn [handlers.all_allowed list_ascii_of_string].
  - split; [intros _ c []|reflexivity].
  - destruct (handlers.allowed_char a) eqn:Ea; cbn [negb].
    + rewrite IH. apply allowed_char_spec in Ea. split.
      * intros H c [<-|Hc]; auto.
      * intros H c Hc. apply H. now right.
    + split; [discriminate|]. intros H.
      assert (handlers.allowed_char a = true); [|congruence].
      apply allowed_char_spec, H. now left.
Qed.

Lemma reservedPaths_lower (r : string) :
  In r handlers.reservedPaths -> strings_ToLower r = r.
Proof.
  unfold handlers.reservedPaths. cbn [In].
  intros H. repeat (destruct H as [<-|H]; [reflexivity|]). contradiction.
Qed.

Lemma isReservedPath_spec (s : string) :
  handlers.isReservedPath s = false <->
  forall r, In r handlers.reservedPaths ->
    strings_ToLower s <> strings_ToLower r.
Proof.
  unfold handlers.isReservedPath. split.
  - intros Hex r Hr Heq. rewrite (reservedPaths_lower r Hr) in Heq.
    assert (existsb (fun reserved => String.eqb (strings_ToLower s) reserved)
              handlers.reservedPaths = true); [|congruence].
    apply existsb_exists. exists r. split; [exact Hr|].
    now apply String.eqb_eq.
  - intros Hno.
    destruct (existsb _ handlers.reservedPaths) eqn:Ex; [|reflexivity].
    apply existsb_exists in Ex as (r & Hr & Heq).
    apply String.eqb_eq in Heq. exfalso. apply (Hno r Hr).
    now rewrite (reservedPaths_lower r Hr).
Qed.

(** C9, as the code has it.  A short_path passes [isValidShortPath]
    exactly when it has 1 to 255 characters, all of them in the charset,
    and differs from every reserved path when both are lowercased.  A
    non-empty short_path that fails the test makes create, update and
    patch answer 400 with the world untouched: nothing was sent to the
    store or to the cache.  One that passes is not rejected.  On create
    an empty short_path counts as no short_path at all. *)
Theorem shortPath_validation (s : string) :
  (handlers.isValidShortPath s = true <->
   (1 <= String.length s <= 255)%nat /\
   (forall c, In c (list_ascii_of_string s) -> in_charset c) /\
   (forall r, In r handlers.reservedPaths ->
      strings_ToLower s <> strings_ToLower r)) /\
  (s <> "" ->
   handlers.isValidShortPath s = false ->
   forall (w : World) (id : UUID) (creq : CreateURLRequest)
          (ureq : UpdateURLRequest),
     cShortPath creq = Some s ->
     uShortPath ureq = Some s ->
     exists msg : string,
       handlers.CreateURL (Ok creq) w =
         (handlers.JSONError handlers.StatusBadRequest msg, w) /\
       handlers.UpdateURL (Ok id) (Ok ureq) w =
         (handlers.JSONError handlers.StatusBadRequest msg, w) /\
       handlers.PatchURL (Ok id) (Ok ureq) w =
         (handlers.JSONError handlers.StatusBadRequest msg, w)) /\
  (handlers.isValidShortPath s = true ->
   handlers.validateShortPath (Some s) = None) /\
  (forall (w : World) (destination : string)
          (title description imageURL : option string)
          (expiresAt : option Time),
     handlers.CreateURL
       (Ok (mkCreateURLRequest (Some "") destination title description
              imageURL expiresAt)) w =
     handlers.CreateURL
       (Ok (mkCreateURLRequest None destination title description
              imageURL expiresAt)) w).
Proof.
  split; [|split; [|split]]; [| | |reflexivity].
  - unfold handlers.isValidShortPath.
    rewrite <- all_allowed_spec, <- isReservedPath_spec.
    destruct (Nat.ltb_spec (String.length s) 1) as [H1|H1];
      destruct (Nat.ltb_spec 255 (String.length s)) as [H2|H2]; cbn [orb];
      try (split; [discriminate|intros [? _]; lia]).
    destruct (handlers.all_allowed s); cbn [negb];
      [|split; [discriminate|intros (_ & ? & _); discriminate]].
    destruct (handlers.isReservedPath s);
      [split; [discriminate|intros (_ & _ & ?); discriminate]|].
    split; [intros _; repeat split; (lia || reflexivity)|reflexivity].
  - intros Hne Hbad w id creq ureq Hc Hu.
    assert (Hv : exists msg,
      handlers.validateShortPath (Some s)
        = Some (handlers.JSONError handlers.StatusBadRequest msg)).
    { unfold handlers.validateShortPath.
      rewrite bool_decide_eq_false_2 by exact Hne. rewrite Hbad. cbn [negb].
      destruct (handlers.isReservedPath s); eauto. }
    destruct Hv as [msg Hv]. exists msg.
    unfold handlers.CreateURL, handlers.UpdateURL, handlers.PatchURL.
    now rewrite Hc, Hu, Hv.
  - intros Hok. unfold handlers.validateShortPath. rewrite Hok.
    now destruct (bool_decide (s = "")).
Qed.

Lemma shortPath_validation_witness :
  ("a_b" <> "" /\ handlers.isValidShortPath "a_b" = false) /\
  fst (handlers.UpdateURL (Ok Sample.id1)
         (Ok (mkUpdateURLRequest (Some "a_b") None None None None None))
         Sample.world) =
    handlers.JSONError handlers.StatusBadRequest "invalid short path format".
Proof.
  split; [split; [discriminate|reflexivity]|].
  destruct (shortPath_validation "a_b") as (_ & Hreject & _ & _).
  destruct (Hreject ltac:(discriminate) eq_refl Sample.world Sample.id1
              (mkCreateURLRequest (Some "a_b") "" None None None None)
              (mkUpdateURLRequest (Some "a_b") None None None None None)
              eq_refl eq_refl) as (msg & _ & Hu & _).
  rewrite Hu. cbn [fst]. vm_compute in Hu. now injection Hu as <-.
Defined.

(** C9, counterexample.  An empty short_path violates the length bound
    and is not rejected: update writes it to the store and answers 200,
    and create answers 201 with a generated path. *)
Lemma empty_short_path_not_rejected :
  handlers.isValidShortPath "" = false /\
  log (snd (handlers.UpdateURL (Ok Sample.id2) (Ok Sample.empty_path)
              Sample.world)) !! 0%nat
    = Some (SqlUpdate Sample.id2 [SetShortPath ""]) /\
  fst (handlers.UpdateURL (Ok Sample.id2) (Ok Sample.empty_path) Sample.world)
    = handlers.JSONURL handlers.StatusOK
        (mkURL Sample.id2 "" "https://example.org" None None None None 20 100) /\
  Sql.select_by_id
    (rows (snd (handlers.UpdateURL (Ok Sample.id2) (Ok Sample.empty_path)
                  Sample.world))) Sample.id2
    = Some (mkURL Sample.id2 "" "https://example.org" None None None None
              20 100) /\
  handlers.status_of
    (fst (handlers.CreateURL
            (Ok (mkCreateURLRequest (Some "") "https://example.com" None None
                   None None)) Sample.world))
    = Some handlers.StatusCreated.
Proof. vm_compute. repeat split; reflexivity. Qed.

(** *** Pagination *)

Lemma parse_digits_range (neg : bool) (body : string) :
  int_min <= fst (parse_digits neg body) <= int_max.
Proof.
  unfold parse_digits, int_min, int_max.
  destruct body as [|b body']; [cbn; lia|].
  destruct (digits_value _ 0) as [v|]; [|cbn; lia]. cbv zeta.
  destruct (Z.ltb_spec (if neg then - v else v) (- 2 ^ 63)); [cbn; lia|].
  destruct (Z.ltb_spec (2 ^ 63 - 1) (if neg then - v else v));
    cbn [fst]; lia.
Qed.

Lemma strconv_Atoi_range (s : string) :
  int_min <= fst (strconv_Atoi s) <= int_max.
Proof.
  unfold strconv_Atoi.
  destruct (match s with
            | String "-"%char r => (true, r)
            | String "+"%char r => (false, r)
            | _ => (false, s)
            end) as [neg body].
  apply parse_digits_range.
Qed.

(** The page and limit that reach the store. *)
Lemma ListURLs_arguments (page limit : option string) (w : World) :
  exists p l : Z,
    1 <= p <= int_max /\ 1 <= l <= 100 /\
    handlers.ListURLs page limit w =
      (let (r, w') := database.ListURLs p l w in
       (match r with
        | Err _ =>
            handlers.JSONError handlers.StatusInternalServerError
              "failed to list URLs"
        | Ok result => handlers.JSONList handlers.StatusOK result
        end, w')).
Proof.
  unfold handlers.ListURLs, bind.
  pose proof (strconv_Atoi_range (default "1" page)) as Hp.
  set (p := fst (strconv_Atoi (default "1" page))) in *.
  set (l := fst (strconv_Atoi (default "10" limit))) in *.
  exists (if p <? 1 then 1 else p),
         (if (l <? 1) || (100 <? l) then 10 else l).
  split; [|split].
  - unfold int_max in *. destruct (Z.ltb_spec p 1); lia.
  - destruct (Z.ltb_spec l 1), (Z.ltb_spec 100 l); cbn [orb]; lia.
  - destruct (database.ListURLs _ _ w) as [[e|r] w']; reflexivity.
Qed.

(** Below the overflow the offset is the product, which is not negative. *)
Lemma ListURLs_offset_small (p l : Z) :
  1 <= p <= int_max -> 1 <= l <= 100 -> (p - 1) * l <= int_max ->
  wrap_int (wrap_int (p - 1) * l) = (p - 1) * l /\ 0 <= (p - 1) * l.
Proof.
  unfold int_max, wrap_int. intros Hp Hl Hsmall.
  assert (H0 : 0 <= (p - 1) * l) by nia.
  rewrite (Z.mod_small (p - 1 + 2 ^ 63)) by lia.
  replace (p - 1 + 2 ^ 63 - 2 ^ 63) with (p - 1) by lia.
  rewrite Z.mod_small by lia. lia.
Qed.

(** C10, at the failing input.  With [page=9223372036854775807] and the
    default limit the handler passes page [2^63 - 1] and limit 10 to the
    store; the product [(page - 1) * limit] wraps around, the OFFSET sent
    is -20, and the request ends in a 500. *)
Lemma ListURLs_offset_overflow :
  fst (strconv_Atoi "9223372036854775807") = int_max /\
  log (snd (handlers.ListURLs (Some "9223372036854775807") None Sample.world))
    = [SqlCount; SqlSelectPage 10 (-20)] /\
  fst (handlers.ListURLs (Some "9223372036854775807") None Sample.world)
    = handlers.JSONError handlers.StatusInternalServerError
        "failed to list URLs".
Proof. vm_compute. repeat split; reflexivity. Qed.

Example ListURLs_first_page :
  log (snd (handlers.ListURLs (Some "0") (Some "500") Sample.world))
    = [SqlCount; SqlSelectPage 10 0] /\
  fst (handlers.ListURLs (Some "0") (Some "500") Sample.world)
    = handlers.JSONList handlers.StatusOK
        (mkListURLsResponse [Sample.rec3; Sample.rec2; Sample.rec1] 3 1 10).
Proof. vm_compute. split; reflexivity. Qed.

End Handlers.

(** * Further properties *)

(** ** The generator and the resolver *)
Section Generated.
Import database.

Lemma get_In (s : string) (i : nat) (c : ascii) :
  String.get i s = Some c -> In c (list_ascii_of_string s).
Proof.
  revert i. induction s as [|a s IH]; intros i; [discriminate|].
  destruct i as [|i]; cbn.
  - intros [= ->]. now left.
  - intros H. right. now apply (IH i).
Qed.

Lemma get_lt (s : string) (i : nat) :
  (i < String.length s)%nat -> exists c, String.get i s = Some c.
Proof.
  revert i. induction s as [|a s IH]; intros i; cbn; [lia|].
  destruct i as [|i]; [eauto|]. intros H. apply IH. lia.
Qed.

Lemma charset_at_In (i : nat) :
  (i < 62)%nat -> In (charset_at i) (list_ascii_of_string charset).
Proof.
  intros Hi. unfold charset_at.
  destruct (get_lt charset i) as [c Hc]; [exact Hi|].
  rewrite Hc. now apply get_In with i.
Qed.

Lemma charset_allowed (c : ascii) :
  In c (list_ascii_of_string charset) ->
  handlers.allowed_char c = true /\ c <> "-"%char.
Proof.
  cbn. intros H.
  repeat (destruct H as [<-|H]; [split; [reflexivity|discriminate]|]).
  contradiction.
Qed.

Lemma rand_Int_frame max w :
  exists i w', rand_Int max w = (i, w') /\
    ((0 < max)%nat -> (i < max)%nat) /\
    rows w' = rows w /\ redis w' = redis w /\ faults w' = faults w /\
    uuids w' = uuids w /\ now w' = now w /\ drift w' = drift w /\
    log w' = log w.
Proof.
  unfold rand_Int. destruct (entropy w) as [|n ns]; eexists _, _;
    (split; [reflexivity|]); cbn; repeat split; try lia.
  intros Hmax. now apply Nat.mod_upper_bound, Nat.neq_0_lt_0.
Qed.

Lemma generateRandomString_frame (n : nat) (w : World) :
  exists (s : string) (w' : World),
    generateRandomString n w = (s, w') /\
    String.length s = n /\
    (forall c, In c (list_ascii_of_string s) ->
       In c (list_ascii_of_string charset)) /\
    handlers.all_allowed s = true /\
    rows w' = rows w /\ redis w' = redis w /\ faults w' = faults w /\
    uuids w' = uuids w /\ now w' = now w /\ drift w' = drift w /\
    log w' = log w.
Proof.
  revert w. induction n as [|n IH]; intros w.
  - exists EmptyString, w. cbn. repeat split. intros c [].
  - cbn [generateRandomString]. unfold bind.
    destruct (rand_Int_frame (String.length charset) w)
      as (i & w1 & -> & Hi & R1 & R2 & R3 & R4 & R5 & R6 & R7).
    destruct (IH w1)
      as (s & w2 & -> & Hlen & Hin & Hall & S1 & S2 & S3 & S4 & S5 & S6 & S7).
    eexists _, _. split; [reflexivity|].
    assert (Hc : In (charset_at i) (list_ascii_of_string charset)).
    { apply charset_at_In, Hi. cbn. lia. }
    split; [cbn; lia|]. split.
    { intros c [<-|Hc']; auto. }
    split.
    { cbn [handlers.all_allowed].
      now rewrite (proj1 (charset_allowed _ Hc)). }
    repeat split; congruence.
Qed.

Lemma shortPathExists_frame p w :
  exists (b : bool) (e : option error) (w' : World),
    shortPathExists p w = ((b, e), w') /\
    (e = None -> b = Sql.exists_short_path (rows w) p) /\
    (faults w = [] -> e = None /\ faults w' = []) /\
    rows w' = rows w /\ redis w' = redis w /\
    uuids w' = uuids w /\ now w' = now w /\ drift w' = drift w.
Proof.
  unfold shortPathExists, bind, call, get_rows, trace, ret.
  destruct (faults w) as [|[e|] fs] eqn:Ef; eexists _, _, _;
    (split; [reflexivity|]); cbn;
    (split; [intros H; first [reflexivity | discriminate H]|]);
    (split; [intros H; first [discriminate H | now split]|]);
    repeat split.
Qed.

(** What an [Ok] result of the resolver loop is like, and what the loop
    leaves alone. *)
Lemma resolver_frame remaining attempt w :
  exists (res : result string) (w' : World),
    generateUniqueShortPath_from remaining attempt w = (res, w') /\
    rows w' = rows w /\ redis w' = redis w /\ uuids w' = uuids w /\
    now w' = now w /\ drift w' = drift w /\
    (faults w = [] -> faults w' = []) /\
    match res with
    | Ok s =>
        (minLength + attempt <= String.length s
         < minLength + attempt + remaining)%nat /\
        (forall c, In c (list_ascii_of_string s) ->
           In c (list_ascii_of_string charset)) /\
        Sql.exists_short_path (rows w) s = false
    | Err _ => True
    end.
Proof.
  revert attempt w. induction remaining as [|r IH]; intros attempt w.
  - exists (Err exhausted), w. cbn. repeat split; auto.
  - cbn [generateUniqueShortPath_from]. unfold bind at 1.
    destruct (generateRandomString_frame (minLength + attempt) w)
      as (p & w1 & -> & Hlen & Hin & _ & G1 & G2 & G3 & G4 & G5 & G6 & _).
    unfold bind at 1.
    destruct (shortPathExists_frame p w1)
      as (b & e & w2 & -> & Hb & Hf & E1 & E2 & E3 & E4 & E5).
    destruct e as [e|].
    + exists (Err e), w2. split; [reflexivity|].
      repeat split; try congruence.
      intros Hw. rewrite <- G3 in Hw. now destruct (Hf Hw).
    + specialize (Hb eq_refl). destruct b; cbn [negb].
      * destruct (IH (S attempt) w2)
          as (res & w3 & -> & I1 & I2 & I3 & I4 & I5 & I6 & Hres).
        exists res, w3. split; [reflexivity|].
        repeat split; try congruence.
        { intros Hw. apply I6. rewrite <- G3 in Hw. now destruct (Hf Hw). }
        destruct res as [s|]; [|exact I].
        destruct Hres as (Hl & Hc & Hx). repeat split; try lia; [exact Hc|].
        now rewrite <- G1, <- E1.
      * exists (Ok p), w2. split; [reflexivity|].
        repeat split; try congruence; try lia.
        { intros Hw. rewrite <- G3 in Hw. now destruct (Hf Hw). }
        exact Hin.
Qed.

(** X1. [generateRandomString n] returns [n] characters, each of them one
    of the 62 letters and digits of [charset], so the string passes the
    character check of the handlers; it reads the random source and
    touches nothing else. *)
Theorem generateRandomString_charset (n : nat) (w : World) :
  exists (s : string) (w' : World),
    generateRandomString n w = (s, w') /\
    String.length s = n /\
    (forall c, In c (list_ascii_of_string s) ->
       In c (list_ascii_of_string charset)) /\
    handlers.all_allowed s = true /\
    rows w' = rows w /\ redis w' = redis w /\ faults w' = faults w /\
    uuids w' = uuids w /\ now w' = now w /\ drift w' = drift w /\
    log w' = log w.
Proof. exact (generateRandomString_frame n w). Qed.

End Generated.

(** ** Creating records *)

Ltac simpl_world_all := cbn [rows redis faults entropy uuids now drift log
  emit set_faults set_redis set_rows set_clock set_uuids set_entropy
  after_call after_clock next_fault hd tl].

Section Creating.
Import database.

(** The statement half of [CreateURL], once the short path is known. *)
Lemma CreateURL_insert_eq (req : CreateURLRequest) (shortPath : string)
    (w0 : World) :
  (id <- uuid_New ;;
   trace (SqlInsert id shortPath) ;;;
   f <- call ;;
   match f with
   | Some e => ret (Err ("failed to create URL: " +:+ e))
   | None =>
       tbl <- get_rows ;;
       t <- clock ;;
       match Sql.insert tbl t id shortPath req with
       | Err e => ret (Err ("failed to create URL: " +:+ e))
       | Ok (url, tbl') => put_rows tbl' ;;; ret (Ok url)
       end
   end) w0 =
  let id := hd nil_uuid (uuids w0) in
  let w1 := emit (SqlInsert id shortPath) (set_uuids (tl (uuids w0)) w0) in
  match next_fault w0 with
  | Some e => (Err ("failed to create URL: " +:+ e), after_call w1)
  | None =>
      match Sql.insert (rows w0) (now w0) id shortPath req with
      | Err e =>
          (Err ("failed to create URL: " +:+ e), after_clock (after_call w1))
      | Ok (url, tbl') =>
          (Ok url, set_rows tbl' (after_clock (after_call w1)))
      end
  end.
Proof.
  unfold uuid_New. run_call w0. unfold after_clock. simpl_world_all.
  destruct us as [|u us]; destruct fs as [|[e|] fs];
    destruct dr as [|d ds]; simpl_world_all; cbn [Z.of_nat];
    rewrite ?Z.add_0_r; try reflexivity;
    now destruct (Sql.insert _ _ _ _ _) as [[? ?]|?].
Qed.

Lemma CreateURL_cases (req : CreateURLRequest) (w : World) :
  exists (p : result string) (w0 : World),
    rows w0 = rows w /\ redis w0 = redis w /\ uuids w0 = uuids w /\
    now w0 = now w /\ drift w0 = drift w /\
    (faults w = [] -> faults w0 = []) /\
    (forall s, cShortPath req = Some s -> s <> "" -> p = Ok s /\ w0 = w) /\
    (cShortPath req = None \/ cShortPath req = Some "" ->
     match p with
     | Ok s =>
         (6 <= String.length s <= 15)%nat /\
         (forall c, In c (list_ascii_of_string s) ->
            In c (list_ascii_of_string charset)) /\
         Sql.exists_short_path (rows w) s = false
     | Err _ => True
     end) /\
    CreateURL req w =
      match p with
      | Err e => (Err ("failed to generate short path: " +:+ e), w0)
      | Ok shortPath =>
          let id := hd nil_uuid (uuids w0) in
          let w1 :=
            emit (SqlInsert id shortPath)
              (set_uuids (tl (uuids w0)) w0) in
          match next_fault w0 with
          | Some e => (Err ("failed to create URL: " +:+ e), after_call w1)
          | None =>
              match Sql.insert (rows w0) (now w0) id shortPath req with
              | Err e =>
                  (Err ("failed to create URL: " +:+ e),
                   after_clock (after_call w1))
              | Ok (url, tbl') =>
                  (Ok url, set_rows tbl' (after_clock (after_call w1)))
              end
          end
      end.
Proof.
  assert (Hgen :
    exists (p : result string) (w0 : World),
      generateUniqueShortPath w = (p, w0) /\
      rows w0 = rows w /\ redis w0 = redis w /\ uuids w0 = uuids w /\
      now w0 = now w /\ drift w0 = drift w /\
      (faults w = [] -> faults w0 = []) /\
      match p with
      | Ok s =>
          (6 <= String.length s <= 15)%nat /\
          (forall c, In c (list_ascii_of_string s) ->
             In c (list_ascii_of_string charset)) /\
          Sql.exists_short_path (rows w) s = false
      | Err _ => True
      end).
  { destruct (resolver_frame maxAttempts 0 w)
      as (p & w0 & Hrun & F1 & F2 & F3 & F4 & F5 & F6 & Hp).
    exists p, w0. repeat (split; [assumption|]).
    destruct p as [s|]; [|exact I]. unfold minLength, maxAttempts in Hp.
    destruct Hp as (Hl & Hc & Hx). repeat split; try lia; assumption. }
  unfold CreateURL.
  destruct (cShortPath req) as [s|] eqn:Es;
    [destruct (bool_decide (s = "")) eqn:Eb|].
  - apply bool_decide_eq_true in Eb. subst s.
    destruct Hgen as (p & w0 & Hrun & F1 & F2 & F3 & F4 & F5 & F6 & Hp).
    exists p, w0. repeat (split; [assumption|]).
    split; [intros s [= <-] Hne; now destruct Hne|].
    split; [intros _; exact Hp|].
    unfold bind at 1. rewrite Hrun.
    destruct p as [sp|e]; [apply CreateURL_insert_eq|reflexivity].
  - apply bool_decide_eq_false in Eb.
    exists (Ok s), w. repeat (split; [reflexivity|]).
    split; [auto|]. split; [intros s' [= <-] _; now split|].
    split; [intros [H|[= H]]; [discriminate H|now destruct Eb]|].
    unfold bind at 1, ret at 1. apply CreateURL_insert_eq.
  - destruct Hgen as (p & w0 & Hrun & F1 & F2 & F3 & F4 & F5 & F6 & Hp).
    exists p, w0. repeat (split; [assumption|]).
    split; [intros s [=]|].
    split; [intros _; exact Hp|].
    unfold bind at 1. rewrite Hrun.
    destruct p as [sp|e]; [apply CreateURL_insert_eq|reflexivity].
Qed.

Lemma insert_ok tbl t id shortPath req url tbl' :
  Sql.insert tbl t id shortPath req = Ok (url, tbl') ->
  url = mkURL id shortPath (cDestination req) (cTitle req)
          (cDescription req) (cImageURL req) (cExpiresAt req) t t /\
  tbl' = (tbl ++ [url])%list /\
  existsb (Sql.has_id id) tbl = false /\
  Sql.exists_short_path tbl shortPath = false.
Proof.
  unfold Sql.insert, Sql.exists_short_path.
  destruct (existsb (Sql.has_id id) tbl); [discriminate|].
  destruct (existsb (Sql.has_short_path shortPath) tbl); [discriminate|].
  intros [= <- <-]. auto.
Qed.

(** X2. When [CreateURL] is given no short path, or an empty one, and
    succeeds, the record's short path has 6 to 15 characters, all letters
    or digits of [charset], and belonged to no row; the record carries
    the request's fields and is appended to the table, whose key
    constraints still hold. *)
Theorem CreateURL_generated (w w' : World) (req : CreateURLRequest)
    (url : URL) :
  cShortPath req = None \/ cShortPath req = Some "" ->
  CreateURL req w = (Ok url, w') ->
  (6 <= String.length (ShortPath url) <= 15)%nat /\
  (forall c, In c (list_ascii_of_string (ShortPath url)) ->
     In c (list_ascii_of_string charset)) /\
  Sql.exists_short_path (rows w) (ShortPath url) = false /\
  Destination url = cDestination req /\
  Title url = cTitle req /\
  Description url = cDescription req /\
  ImageURL url = cImageURL req /\
  ExpiresAt url = cExpiresAt req /\
  rows w' = (rows w ++ [url])%list /\
  (unique_keys (rows w) -> unique_keys (rows w')).
Proof.
  intros Hnone Hrun.
  destruct (CreateURL_cases req w)
    as (p & w0 & F1 & F2 & F3 & F4 & F5 & F6 & _ & Hgen & Heq).
  specialize (Hgen Hnone). rewrite Heq in Hrun. clear Heq.
  destruct p as [sp|e]; [|discriminate]. cbv zeta in Hrun.
  destruct (next_fault w0); [discriminate|].
  destruct (Sql.insert _ _ _ _ _) as [[u tbl']|e] eqn:Eins; [|discriminate].
  injection Hrun as -> <-.
  destruct (insert_ok _ _ _ _ _ _ _ Eins) as (-> & -> & _ & _).
  destruct Hgen as (Hl & Hc & Hx). unfold after_clock. simpl_world.
  cbn [ShortPath Destination Title Description ImageURL ExpiresAt].
  repeat (split; [first [assumption | lia | reflexivity
                          | now rewrite F1]|]).
  intros Hk. rewrite <- F1 in Hk.
  eapply insert_unique_keys; [exact Hk|exact Eins].
Qed.

End Creating.

(** ** What the handlers preserve *)
Section Preserving.

Lemma preserves_ret {A} (P : list URL -> Prop) (a : A) : preserves P (ret a).
Proof. intros w H. exact H. Qed.

Lemma preserves_bind {A B} (P : list URL -> Prop) (m : M A) (k : A -> M B) :
  preserves P m -> (forall a, preserves P (k a)) -> preserves P (bind m k).
Proof.
  intros Hm Hk w H. unfold bind. specialize (Hm w H).
  destruct (m w) as [a w1]. exact (Hk a w1 Hm).
Qed.

Lemma preserves_frame {A} (P : list URL -> Prop) (m : M A) :
  (forall w, rows (snd (m w)) = rows w) -> preserves P m.
Proof. intros Hm w H. now rewrite Hm. Qed.

Lemma get_json_rows key w : rows (snd (redis.get_json key w)) = rows w.
Proof. rewrite get_json_eq. reflexivity. Qed.

Lemma set_json_rows key v w : rows (snd (redis.set_json key v w)) = rows w.
Proof. rewrite set_json_eq. now destruct (next_fault w). Qed.

Lemma del_rows key w : rows (snd (redis.del key w)) = rows w.
Proof. rewrite del_eq. now destruct (next_fault w). Qed.

Lemma GetURLByID_rows id w : rows (snd (database.GetURLByID id w)) = rows w.
Proof. rewrite GetURLByID_eq. reflexivity. Qed.

Lemma GetURLByShortPath_rows p w :
  rows (snd (database.GetURLByShortPath p w)) = rows w.
Proof. rewrite GetURLByShortPath_eq. now destruct (next_fault w). Qed.

Lemma ListURLs_eq page limit w :
  database.ListURLs page limit w =
    let offset := wrap_int (wrap_int (page - 1) * limit) in
    let w1 := after_call (emit SqlCount w) in
    let w2 := after_call (emit (SqlSelectPage limit offset) w1) in
    match next_fault w with
    | Some e => (Err ("failed to count URLs: " +:+ e), w1)
    | None =>
        match next_fault w1 with
        | Some e => (Err ("failed to list URLs: " +:+ e), w2)
        | None =>
            match Sql.select_page (rows w) limit offset with
            | Err e => (Err ("failed to list URLs: " +:+ e), w2)
            | Ok urls =>
                (Ok (mkListURLsResponse urls (Z.of_nat (length (rows w)))
                       page limit), w2)
            end
        end
    end.
Proof.
  unfold database.ListURLs. run_call w.
  destruct fs as [|[e|] [|[e'|] fs]]; simpl_world; try reflexivity;
    now destruct (Sql.select_page _ _ _).
Qed.

Lemma ListURLs_rows page limit w :
  rows (snd (database.ListURLs page limit w)) = rows w /\
  redis (snd (database.ListURLs page limit w)) = redis w.
Proof.
  rewrite ListURLs_eq. cbv zeta.
  destruct (next_fault w); [now split|].
  destruct (next_fault _); [now split|].
  now destruct (Sql.select_page _ _ _).
Qed.

Lemma Redirect_serve_rows td url w :
  rows (snd (handlers.Redirect_serve td url w)) = rows w.
Proof.
  unfold handlers.Redirect_serve, bind.
  destruct (ExpiresAt url) as [e|]; rewrite ?clock_eq;
    try destruct (e <? now w); rewrite ?Redirect_render_eq; unfold ret;
    cbn [snd]; unfold after_clock; now simpl_world.
Qed.

Lemma CreateURL_preserves req : preserves unique_keys (database.CreateURL req).
Proof.
  intros w Hk.
  destruct (CreateURL_cases req w)
    as (p & w0 & F1 & _ & _ & _ & _ & _ & _ & _ & ->).
  rewrite <- F1 in Hk.
  destruct p as [sp|e]; [|exact Hk]. cbv zeta.
  destruct (next_fault w0); [exact Hk|].
  destruct (Sql.insert _ _ _ _ _) as [[u tbl']|e] eqn:Eins;
    unfold after_clock; cbn [snd]; simpl_world_all; [|exact Hk].
  exact (insert_unique_keys _ _ _ _ _ _ _ Hk Eins).
Qed.

Lemma UpdateURL_preserves id req :
  preserves unique_keys (database.UpdateURL id req).
Proof.
  intros w Hk. rewrite UpdateURL_eq.
  destruct (next_fault w); [exact Hk|]. cbv zeta.
  destruct (Sql.update _ _ _ _) as [[[u|] tbl']|e] eqn:Eu;
    unfold after_clock; simpl_world; try exact Hk.
  exact (update_unique_keys _ _ _ _ _ _ Hk Eu).
Qed.

Lemma DeleteURL_preserves id : preserves unique_keys (database.DeleteURL id).
Proof.
  intros w Hk. rewrite DeleteURL_eq.
  destruct (next_fault w); [exact Hk|]. simpl_world.
  now apply delete_unique_keys.
Qed.

Ltac preserve :=
  repeat first
    [ apply preserves_ret
    | apply CreateURL_preserves
    | apply UpdateURL_preserves
    | apply DeleteURL_preserves
    | apply preserves_frame; intros ?;
      first [ apply get_json_rows | apply set_json_rows | apply del_rows
            | apply GetURLByID_rows | apply GetURLByShortPath_rows
            | apply ListURLs_rows | apply Redirect_serve_rows ]
    | apply preserves_bind; [|intros ?]
    | match goal with
      | |- preserves _ (match ?x with _ => _ end) => destruct x
      end ].

(** X3. Every request handler keeps the key constraints of the table: if
    ids and short paths were unique before the request, they are unique
    after it, whatever the request, the cache content and the failures. *)
Theorem handlers_keep_unique_keys :
  (forall body, preserves unique_keys (handlers.CreateURL body)) /\
  (forall id, preserves unique_keys (handlers.GetURL id)) /\
  (forall page limit, preserves unique_keys (handlers.ListURLs page limit)) /\
  (forall id body, preserves unique_keys (handlers.UpdateURL id body)) /\
  (forall id body, preserves unique_keys (handlers.PatchURL id body)) /\
  (forall id, preserves unique_keys (handlers.DeleteURL id)) /\
  (forall td shortPath,
     preserves unique_keys (handlers.Redirect td shortPath)).
Proof.
  repeat match goal with |- _ /\ _ => split end.
  - intros body.
    unfold handlers.CreateURL, redis.SetURL, redis.SetURLByID. preserve.
  - intros id.
    unfold handlers.GetURL, redis.GetURLByID, redis.SetURL, redis.SetURLByID.
    preserve.
  - intros page limit. unfold handlers.ListURLs. preserve.
  - intros id body.
    unfold handlers.UpdateURL, redis.SetURL, redis.SetURLByID. preserve.
  - intros id body.
    unfold handlers.PatchURL, redis.SetURL, redis.SetURLByID. preserve.
  - intros id.
    unfold handlers.DeleteURL, redis.DeleteURL, redis.DeleteURLByID. preserve.
  - intros td shortPath.
    unfold handlers.Redirect, handlers.Redirect_lookup, redis.GetURL,
      redis.SetURL. preserve.
Qed.

(** X4. The handlers that read, get-by-id, list and redirect, leave the
    table exactly as it was; list does not touch the cache either. *)
Theorem read_handlers_leave_table (w : World) :
  (forall id, rows (snd (handlers.GetURL id w)) = rows w) /\
  (forall page limit,
     rows (snd (handlers.ListURLs page limit w)) = rows w /\
     redis (snd (handlers.ListURLs page limit w)) = redis w) /\
  (forall td shortPath,
     rows (snd (handlers.Redirect td shortPath w)) = rows w).
Proof.
  split; [|split].
  - intros id.
    assert (H : preserves (fun r => r = rows w) (handlers.GetURL id)).
    { unfold handlers.GetURL, redis.GetURLByID, redis.SetURL,
        redis.SetURLByID. preserve. }
    now apply H.
  - intros page limit. unfold handlers.ListURLs, bind.
    pose proof (ListURLs_rows
      (if fst (strconv_Atoi (default "1" page)) <? 1 then 1
       else fst (strconv_Atoi (default "1" page)))
      (if (fst (strconv_Atoi (default "10" limit)) <? 1)
          || (100 <? fst (strconv_Atoi (default "10" limit)))
       then 10 else fst (strconv_Atoi (default "10" limit))) w) as H.
    cbv zeta. destruct (database.ListURLs _ _ w) as [[r|e] w1]; exact H.
  - intros td shortPath.
    assert (H : preserves (fun r => r = rows w)
                  (handlers.Redirect td shortPath)).
    { unfold handlers.Redirect, handlers.Redirect_lookup, redis.GetURL,
        redis.SetURL. preserve. }
    now apply H.
Qed.

End Preserving.

(** ** Create, then read *)
Section CreateRead.



Lemma CreateURL_ok (req : CreateURLRequest) (w w1 : World) (url : URL) :
  database.CreateURL req w = (Ok url, w1) ->
  rows w1 = (rows w ++ [url])%list /\
  redis w1 = redis w /\
  (faults w = [] -> faults w1 = []) /\
  existsb (Sql.has_id (ID url)) (rows w) = false /\
  Sql.exists_short_path (rows w) (ShortPath url) = false /\
  ShortPath url <> "" /\
  (forall s, cShortPath req = Some s -> s <> "" -> ShortPath url = s) /\
  ID url = hd nil_uuid (uuids w).
Proof.
  intros Hrun.
  destruct (CreateURL_cases req w)
    as (p & w0 & F1 & F2 & F3 & F4 & F5 & F6 & Hcustom & Hgen & Heq).
  rewrite Heq in Hrun. clear Heq.
  destruct p as [sp|e]; [|discriminate]. cbv zeta in Hrun.
  destruct (next_fault w0) eqn:Ef; [discriminate|].
  destruct (Sql.insert _ _ _ _ _) as [[u tbl']|e] eqn:Eins; [|discriminate].
  injection Hrun as -> <-.
  destruct (insert_ok _ _ _ _ _ _ _ Eins) as (Hu & -> & Hid & Hsp).
  assert (Hne : sp <> "").
  { destruct (cShortPath req) as [s|] eqn:Es.
    - destruct (decide (s = "")) as [->|Hs].
      + specialize (Hgen (or_intror eq_refl)). destruct Hgen as ((Hl & _) & _).
        intros ->. cbn in Hl. lia.
      + destruct (Hcustom s eq_refl Hs) as [[= ->] _]. exact Hs.
    - specialize (Hgen (or_introl eq_refl)). destruct Hgen as ((Hl & _) & _).
      intros ->. cbn in Hl. lia. }
  unfold after_clock. simpl_world_all. subst url.
  cbn [ID ShortPath]. rewrite <- F1, <- F2, <- F3.
  repeat (split; [first [reflexivity | assumption]|]).
  split.
  { intros Hw. now rewrite (F6 Hw). }
  repeat (split; [first [reflexivity | assumption]|]).
  split; [|reflexivity].
  intros s Hs Hs'. now destruct (Hcustom s Hs Hs') as [[= ->] _].
Qed.


(** X6. Creating a record under a valid custom short path that a row
    already has is answered 409; one INSERT has been sent, and the table
    and the cache are as before. *)
Theorem CreateURL_taken_path (req : CreateURLRequest) (s : string)
    (w : World) :
  cShortPath req = Some s ->
  handlers.isValidShortPath s = true ->
  Sql.exists_short_path (rows w) s = true ->
  next_fault w = None ->
  exists w' : World,
    handlers.CreateURL (Ok req) w =
      (handlers.JSONError handlers.StatusConflict
         "short path already exists", w') /\
    rows w' = rows w /\ redis w' = redis w /\
    log w' = (log w ++ [SqlInsert (hd nil_uuid (uuids w)) s])%list.
Proof.
  intros Hs Hvalid Htaken Hf.
  assert (Hne : s <> "") by (intros ->; discriminate Hvalid).
  unfold handlers.CreateURL, bind. rewrite Hs.
  unfold handlers.validateShortPath.
  rewrite bool_decide_eq_false_2 by exact Hne. rewrite Hvalid. cbn [negb].
  destruct (CreateURL_cases req w)
    as (p & w0 & _ & _ & _ & _ & _ & _ & Hcustom & _ & ->).
  destruct (Hcustom s Hs Hne) as [-> ->]. cbv zeta. rewrite Hf.
  unfold Sql.insert, Sql.exists_short_path in *. rewrite Htaken.
  destruct (existsb (Sql.has_id _) (rows w));
    rewrite unique_violation_recognised; eexists; (split; [reflexivity|]);
    unfold after_clock; now simpl_world_all.
Qed.

End CreateRead.

(** ** Write-through, then cache hits *)
Section WriteThrough.

Lemma url_key_inj (p q : string) : redis.url_key p = redis.url_key q -> p = q.
Proof. unfold redis.url_key. cbn. now intros [=]. Qed.

Lemma url_id_key_inj (p q : string) :
  redis.url_id_key p = redis.url_id_key q -> p = q.
Proof. unfold redis.url_id_key. cbn. now intros [=]. Qed.

Lemma next_fault_nil w : faults w = [] -> next_fault w = None.
Proof. unfold next_fault. now intros ->. Qed.

Lemma validateShortPath_error (o : option string) (r : handlers.Response) :
  handlers.validateShortPath o = Some r ->
  exists msg, r = handlers.JSONError handlers.StatusBadRequest msg.
Proof.
  unfold handlers.validateShortPath. destruct o as [s|]; [|discriminate].
  destruct (bool_decide (s = "")); cbn [negb]; [discriminate|].
  destruct (handlers.isValidShortPath s); cbn [negb]; [discriminate|].
  destruct (handlers.isReservedPath s); intros [= <-]; eauto.
Qed.

(** X7. In a deployment where no call fails, a create answered 201 has
    written the record under both cache keys, so that the next get-by-id
    and the next redirect lookup for this record are answered from the
    cache: each sends one Redis GET and no SQL statement. *)
Theorem CreateURL_then_cached_reads (req : CreateURLRequest) (w w1 : World)
    (url : URL) :
  faults w = [] ->
  handlers.CreateURL (Ok req) w =
    (handlers.JSONURL handlers.StatusCreated url, w1) ->
  redis w1 !! redis.url_key (ShortPath url) = Some (Some url) /\
  redis w1 !! redis.url_id_key (uuid_String (ID url)) = Some (Some url) /\
  handlers.GetURL (Ok (ID url)) w1 =
    (handlers.JSONURL handlers.StatusOK url,
     after_call (emit (RedisGet (redis.url_id_key (uuid_String (ID url))))
                   w1)) /\
  handlers.Redirect_lookup (ShortPath url) w1 =
    (inr url,
     after_call (emit (RedisGet (redis.url_key (ShortPath url))) w1)).
Proof.
  intros Hw Hrun. unfold handlers.CreateURL, bind, ret in Hrun.
  destruct (handlers.validateShortPath _) as [r|] eqn:Ev.
  { apply validateShortPath_error in Ev as [msg ->]. discriminate Hrun. }
  destruct (database.CreateURL req w) as [[u|e] w0] eqn:Ec;
    cbv beta iota in Hrun;
    [|destruct (strings_Contains _ _); discriminate].
  destruct (CreateURL_ok req w w0 u Ec) as (_ & _ & Hf0 & _ & _ & Hne & _).
  specialize (Hf0 Hw).
  unfold redis.SetURL, redis.SetURLByID, ret in Hrun.
  rewrite set_json_eq, (next_fault_nil w0 Hf0) in Hrun.
  rewrite set_json_eq in Hrun.
  assert (Hf1 : next_fault
            (set_redis (<[redis.url_key (ShortPath u) := Some u]> (redis w0))
               (after_call
                  (emit (RedisSet (redis.url_key (ShortPath u)) (Some u)) w0)))
          = None).
  { apply next_fault_nil. simpl_world. now rewrite Hf0. }
  rewrite Hf1 in Hrun. injection Hrun as <- Hw1.
  assert (Hfaults : next_fault w1 = None).
  { apply next_fault_nil. rewrite <- Hw1. simpl_world. now rewrite Hf0. }
  assert (Hredis : redis w1 =
    <[redis.url_id_key (uuid_String (ID u)) := Some u]>
      (<[redis.url_key (ShortPath u) := Some u]> (redis w0))).
  { rewrite <- Hw1. now simpl_world. }
  assert (Hpath :
    redis w1 !! redis.url_key (ShortPath u) = Some (Some u)).
  { rewrite Hredis.
    rewrite lookup_insert_ne by (intros E; symmetry in E;
      exact (url_keys_disjoint _ _ E)).
    apply lookup_insert_eq. }
  assert (Hid :
    redis w1 !! redis.url_id_key (uuid_String (ID u)) = Some (Some u)).
  { rewrite Hredis. apply lookup_insert_eq. }
  split; [exact Hpath|]. split; [exact Hid|]. split.
  - unfold handlers.GetURL, redis.GetURLByID, bind.
    now rewrite get_json_eq, Hfaults, Hid.
  - unfold handlers.Redirect_lookup, redis.GetURL, bind.
    rewrite bool_decide_eq_false_2 by exact Hne.
    now rewrite get_json_eq, Hfaults, Hpath.
Qed.

End WriteThrough.

(** ** Delete, then read *)
Section DeleteRead.

Lemma DeleteURL_done (w w1 : World) (id : UUID) :
  faults w = [] ->
  handlers.DeleteURL (Ok id) w =
    (handlers.Status handlers.StatusNoContent, w1) ->
  exists url,
    Sql.select_by_id (rows w) id = Some url /\
    rows w1 = snd (Sql.delete (rows w) id) /\
    redis w1 =
      delete (redis.url_key (ShortPath url))
        (delete (redis.url_id_key (uuid_String id)) (redis w)).
Proof.
  intros Hw Hrun. unfold handlers.DeleteURL, bind, ret in Hrun.
  rewrite GetURLByID_eq, (next_fault_nil w Hw) in Hrun.
  destruct (Sql.select_by_id (rows w) id) as [url|]; [|discriminate].
  exists url. split; [reflexivity|].
  rewrite DeleteURL_eq in Hrun.
  set (wa := after_call (emit (SqlSelectByID id) w)) in *.
  assert (Ha : faults wa = []) by (subst wa; simpl_world; now rewrite Hw).
  rewrite (next_fault_nil wa Ha) in Hrun.
  destruct (_ =? 0); [discriminate|].
  unfold redis.DeleteURLByID, redis.DeleteURL in Hrun.
  set (wb := set_rows _ _) in *.
  assert (Hb : faults wb = []) by (subst wb; simpl_world; now rewrite Ha).
  rewrite del_eq, (next_fault_nil wb Hb) in Hrun.
  set (wc := set_redis _ _) in *.
  assert (Hc : faults wc = []) by (subst wc; simpl_world; now rewrite Hb).
  rewrite del_eq, (next_fault_nil wc Hc) in Hrun.
  injection Hrun as <-. subst wc wb wa. now simpl_world.
Qed.

Lemma select_by_short_path_after_delete tbl id url t :
  unique_keys tbl ->
  Sql.select_by_id tbl id = Some url ->
  Sql.select_by_short_path (snd (Sql.delete tbl id)) (ShortPath url) t = None.
Proof.
  intros [_ Hpaths] Hsel. apply find_has_id in Hsel as [Hin Hid].
  unfold Sql.select_by_short_path, Sql.delete. cbn [snd].
  destruct (find _ _) as [v|] eqn:Ef; [|reflexivity].
  apply find_some in Ef as [Hv Hc]. apply andb_true_iff in Hc as [Hp _].
  apply list_elem_of_In, list_elem_of_filter in Hv as [Hno Hv].
  apply list_elem_of_In in Hv.
  unfold Sql.has_short_path in Hp. apply bool_decide_eq_true in Hp.
  assert (v = url) as -> by now apply (NoDup_map_inj ShortPath tbl).
  unfold Sql.has_id in Hno. rewrite bool_decide_eq_true_2 in Hno by exact Hid.
  discriminate.
Qed.

(** X8. In a deployment where no call fails, once a delete has been
    answered 204 the record is gone for readers: as long as the table and
    the cache stay as the delete left them, get-by-id answers 404 (or 500
    when the store fails) and a redirect by the record's short path
    answers 404 or 500, never the page. *)
Theorem DeleteURL_then_not_found (w w1 : World) (id : UUID) :
  unique_keys (rows w) ->
  faults w = [] ->
  handlers.DeleteURL (Ok id) w =
    (handlers.Status handlers.StatusNoContent, w1) ->
  exists url : URL,
    Sql.select_by_id (rows w) id = Some url /\
    forall (w2 : World) (twitterDomain : string),
      rows w2 = rows w1 ->
      redis w2 = redis w1 ->
      (fst (handlers.GetURL (Ok id) w2) =
         handlers.JSONError handlers.StatusNotFound "URL not found" \/
       fst (handlers.GetURL (Ok id) w2) =
         handlers.JSONError handlers.StatusInternalServerError
           "failed to get URL") /\
      (exists msg,
         fst (handlers.Redirect twitterDomain (ShortPath url) w2) =
           handlers.JSONError handlers.StatusNotFound msg \/
         fst (handlers.Redirect twitterDomain (ShortPath url) w2) =
           handlers.JSONError handlers.StatusInternalServerError msg).
Proof.
  intros Hk Hw Hrun.
  destruct (DeleteURL_done w w1 id Hw Hrun) as (url & Hsel & Hrows & Hredis).
  exists url. split; [exact Hsel|].
  intros w2 td Hr2 Hc2. rewrite Hrows in Hr2. rewrite Hredis in Hc2.
  assert (Hid : redis w2 !! redis.url_id_key (uuid_String id) = None).
  { rewrite Hc2.
    rewrite lookup_delete_ne by apply url_keys_disjoint.
    apply lookup_delete_eq. }
  assert (Hpath : redis w2 !! redis.url_key (ShortPath url) = None).
  { rewrite Hc2. apply lookup_delete_eq. }
  split.
  - unfold handlers.GetURL, redis.GetURLByID, bind, ret.
    rewrite get_json_eq, Hid.
    destruct (next_fault w2); cbv beta iota; rewrite GetURLByID_eq;
      (destruct (next_fault _); [now right|]); simpl_world;
      rewrite Hr2, select_after_delete; now left.
  - unfold handlers.Redirect, handlers.Redirect_lookup.
    destruct (bool_decide (ShortPath url = "")); [eexists; now left|].
    unfold redis.GetURL, bind, ret. rewrite get_json_eq, Hpath.
    destruct (next_fault w2); cbv beta iota; rewrite GetURLByShortPath_eq;
      (destruct (next_fault _); [eexists; now right|]); simpl_world;
      rewrite Hr2, (select_by_short_path_after_delete _ _ _ _ Hk Hsel);
      eexists; now left.
Qed.

End DeleteRead.

(** ** Renaming a record *)
Section Rename.



End Rename.

(** ** Listing *)
Section Listing.

Lemma insert_desc_perm u l : Sql.insert_desc u l ≡ₚ u :: l.
Proof.
  induction l as [|v l IH]; cbn; [reflexivity|].
  destruct (CreatedAt v <? CreatedAt u); [reflexivity|].
  rewrite IH. apply Permutation_swap.
Qed.

Lemma order_perm tbl : Sql.order_by_created_at_desc tbl ≡ₚ tbl.
Proof.
  induction tbl as [|u tbl IH]; cbn; [reflexivity|].
  rewrite insert_desc_perm. now rewrite IH.
Qed.

Lemma insert_desc_sorted u l :
  StronglySorted newer_first l -> StronglySorted newer_first (Sql.insert_desc u l).
Proof.
  induction l as [|v l IH]; intros Hs; cbn.
  - constructor; constructor.
  - apply StronglySorted_inv in Hs as [Hs Hv].
    destruct (Z.ltb_spec (CreatedAt v) (CreatedAt u)).
    + constructor; [now constructor|].
      constructor; [unfold newer_first; lia|].
      eapply Forall_impl; [exact Hv|].
      intros x Hx. unfold newer_first in *. lia.
    + constructor; [now apply IH|].
      rewrite insert_desc_perm. constructor; [unfold newer_first; lia|].
      exact Hv.
Qed.

Lemma order_sorted tbl :
  StronglySorted newer_first (Sql.order_by_created_at_desc tbl).
Proof.
  induction tbl as [|u tbl IH]; cbn; [constructor|].
  now apply insert_desc_sorted.
Qed.

Lemma StronglySorted_drop {A} (R : A -> A -> Prop) (l : list A) n :
  StronglySorted R l -> StronglySorted R (drop n l).
Proof.
  revert l. induction n as [|n IH]; intros l Hs; [now rewrite drop_0|].
  destruct l as [|a l]; [constructor|]. cbn.
  apply StronglySorted_inv in Hs as [Hs _]. now apply IH.
Qed.

Lemma StronglySorted_take {A} (R : A -> A -> Prop) (l : list A) n :
  StronglySorted R l -> StronglySorted R (take n l).
Proof.
  revert l. induction n as [|n IH]; intros l Hs; [constructor|].
  destruct l as [|a l]; [constructor|]. cbn.
  apply StronglySorted_inv in Hs as [Hs Ha].
  constructor; [now apply IH|]. now apply Forall_take.
Qed.

(** X10. A page returned by [ListURLs] holds at most [limit] records, all
    of them rows of the table, newest first; the response echoes page and
    limit, and its total is the number of rows. *)
Theorem ListURLs_page (page limit : Z) (w w1 : World)
    (resp : ListURLsResponse) :
  database.ListURLs page limit w = (Ok resp, w1) ->
  (length (URLs resp) <= Z.to_nat limit)%nat /\
  (forall u, In u (URLs resp) -> In u (rows w)) /\
  StronglySorted newer_first (URLs resp) /\
  Total resp = Z.of_nat (length (rows w)) /\
  Page resp = page /\ Limit resp = limit /\
  rows w1 = rows w.
Proof.
  rewrite ListURLs_eq. cbv zeta.
  destruct (next_fault w); [discriminate|].
  destruct (next_fault _); [discriminate|].
  unfold Sql.select_page.
  destruct (limit <? 0); [discriminate|].
  destruct (_ <? 0); [discriminate|].
  intros [= <- <-]. cbn [URLs Total Page Limit]. simpl_world.
  split; [rewrite length_take; lia|]. split.
  { intros u Hu. apply list_elem_of_In in Hu.
    apply list_elem_of_In. rewrite <- (order_perm (rows w)).
    eapply elem_of_sublist; [exact Hu|].
    etransitivity; [apply sublist_take|apply sublist_drop]. }
  split; [|auto].
  apply StronglySorted_take, StronglySorted_drop, order_sorted.
Qed.


End Listing.

(** ** Expiry at the boundary, and a cached null *)
Section Edges.



End Edges.

(** ** Updates and deletions in the store *)
Section StoreWrites.



(** X15. [DeleteURL] on an id that no row has reports "URL not found" and
    leaves the table as it was; on an id that a row has it returns no
    error, after it no row has the id, and the rows that remain are
    exactly the rows with another id. *)
Theorem DeleteURL_store (w : World) (id : UUID) :
  next_fault w = None ->
  (Sql.select_by_id (rows w) id = None ->
   fst (database.DeleteURL id w) = Some "URL not found" /\
   rows (snd (database.DeleteURL id w)) = rows w) /\
  (forall u, Sql.select_by_id (rows w) id = Some u ->
   fst (database.DeleteURL id w) = None /\
   Sql.select_by_id (rows (snd (database.DeleteURL id w))) id = None /\
   forall v, In v (rows (snd (database.DeleteURL id w))) <->
             In v (rows w) /\ ID v <> id).
Proof.
  intros Hf. rewrite DeleteURL_eq, Hf. cbn [fst snd]. simpl_world. split.
  - intros Hnone.
    assert (Hall : forall v, In v (rows w) -> Sql.has_id id v = false).
    { intros v Hv. exact (find_none _ _ Hnone v Hv). }
    assert (Hkeep : filter (fun v => Sql.has_id id v = false) (rows w)
                    = rows w).
    { clear Hnone. induction (rows w) as [|a l IH]; [reflexivity|].
      rewrite filter_cons.
      rewrite decide_True by (apply Hall; now left).
      f_equal. apply IH. intros v Hv. apply Hall. now right. }
    assert (Hdrop : filter (fun v => Sql.has_id id v = true) (rows w) = []).
    { clear Hnone Hkeep. induction (rows w) as [|a l IH]; [reflexivity|].
      rewrite filter_cons.
      rewrite decide_False
        by (rewrite (Hall a (or_introl eq_refl)); discriminate).
      apply IH. intros v Hv. apply Hall. now right. }
    unfold Sql.delete. cbn [fst snd]. rewrite Hdrop, Hkeep. now split.
  - intros u Hsel. pose proof (delete_affects _ _ _ Hsel) as Hn.
    destruct (Z.eqb_spec (Sql.delete (rows w) id).1 0); [contradiction|].
    split; [reflexivity|]. split; [apply select_after_delete|].
    intros v. unfold Sql.delete. cbn [snd].
    rewrite <- !list_elem_of_In, list_elem_of_filter.
    unfold Sql.has_id. rewrite bool_decide_eq_false. tauto.
Qed.

End StoreWrites.

(** ** The cache client *)
Section CacheClient.

Lemma set_json_nil key v w :
  faults w = [] ->
  faults (snd (redis.set_json key v w)) = [] /\
  redis (snd (redis.set_json key v w)) = <[key := v]> (redis w).
Proof.
  intros Hw. rewrite set_json_eq, (next_fault_nil w Hw). cbn [snd].
  simpl_world. now rewrite Hw.
Qed.

Lemma del_nil key w :
  faults w = [] ->
  faults (snd (redis.del key w)) = [] /\
  redis (snd (redis.del key w)) = delete key (redis w).
Proof.
  intros Hw. rewrite del_eq, (next_fault_nil w Hw). cbn [snd].
  simpl_world. now rewrite Hw.
Qed.

Lemma get_json_nil key w :
  faults w = [] ->
  fst (redis.get_json key w) =
    match redis w !! key with
    | None => Ok None
    | Some None => Ok (Some zeroURL)
    | Some (Some url) => Ok (Some url)
    end.
Proof. intros Hw. now rewrite get_json_eq, (next_fault_nil w Hw). Qed.

(** X16. While Redis answers, a record set under a short path is what a
    get for that path returns, and a get after its deletion is a miss;
    the same holds for the entries keyed by id.  A set under a short path
    changes the answer for no other path and for no id, and a set under
    an id changes the answer for no other id and for no path. *)
Theorem cache_round_trip (w : World) (p i : string) (u : URL) :
  faults w = [] ->
  fst (redis.GetURL p (snd (redis.SetURL p (Some u) w))) = Ok (Some u) /\
  fst (redis.GetURL p
         (snd (redis.DeleteURL p (snd (redis.SetURL p (Some u) w)))))
    = Ok None /\
  fst (redis.GetURLByID i (snd (redis.SetURLByID i (Some u) w)))
    = Ok (Some u) /\
  fst (redis.GetURLByID i
         (snd (redis.DeleteURLByID i (snd (redis.SetURLByID i (Some u) w)))))
    = Ok None /\
  (forall q, q <> p ->
     fst (redis.GetURL q (snd (redis.SetURL p (Some u) w)))
     = fst (redis.GetURL q w)) /\
  (forall j,
     fst (redis.GetURLByID j (snd (redis.SetURL p (Some u) w)))
     = fst (redis.GetURLByID j w)) /\
  (forall j, j <> i ->
     fst (redis.GetURLByID j (snd (redis.SetURLByID i (Some u) w)))
     = fst (redis.GetURLByID j w)) /\
  (forall q,
     fst (redis.GetURL q (snd (redis.SetURLByID i (Some u) w)))
     = fst (redis.GetURL q w)).
Proof.
  intros Hw.
  unfold redis.GetURL, redis.SetURL, redis.DeleteURL, redis.GetURLByID,
    redis.SetURLByID, redis.DeleteURLByID.
  destruct (set_json_nil (redis.url_key p) (Some u) w Hw) as [Hf1 Hr1].
  destruct (set_json_nil (redis.url_id_key i) (Some u) w Hw) as [Hf2 Hr2].
  destruct (del_nil (redis.url_key p) _ Hf1) as [Hf3 Hr3].
  destruct (del_nil (redis.url_id_key i) _ Hf2) as [Hf4 Hr4].
  rewrite !get_json_nil by assumption.
  rewrite Hr3, Hr4, Hr1, Hr2.
  rewrite !lookup_delete_eq, !lookup_insert_eq.
  repeat (split; [reflexivity|]).
  split; [|split; [|split]].
  - intros q Hq. rewrite !get_json_nil by assumption. rewrite Hr1.
    rewrite lookup_insert_ne; [reflexivity|].
    intros E. apply url_key_inj in E. congruence.
  - intros j. rewrite !get_json_nil by assumption. rewrite Hr1.
    rewrite lookup_insert_ne; [reflexivity|]. apply url_keys_disjoint.
  - intros j Hj. rewrite !get_json_nil by assumption. rewrite Hr2.
    rewrite lookup_insert_ne; [reflexivity|].
    intros E. apply url_id_key_inj in E. congruence.
  - intros q. rewrite !get_json_nil by assumption. rewrite Hr2.
    rewrite lookup_insert_ne; [reflexivity|].
    intros E. symmetry in E. exact (url_keys_disjoint _ _ E).
Qed.

End CacheClient.

(** ** Reserved words and paging arguments *)
Section Arguments.

(** X17. A reserved path is rejected in every letter case: a short path
    whose lowercase form is a reserved word fails validation, and the
    handlers answer that the path is reserved. *)
Theorem reserved_in_any_case (s r : string) :
  In r handlers.reservedPaths ->
  strings_ToLower s = r ->
  handlers.isValidShortPath s = false /\
  handlers.validateShortPath (Some s) =
    Some (handlers.JSONError handlers.StatusBadRequest
            "short path is reserved and cannot be used").
Proof.
  intros Hr Hs.
  assert (Hres : handlers.isReservedPath s = true).
  { unfold handlers.isReservedPath. apply existsb_exists.
    exists r. split; [exact Hr|]. now apply String.eqb_eq. }
  assert (Hbad : handlers.isValidShortPath s = false).
  { unfold handlers.isValidShortPath. rewrite Hres.
    destruct (_ || _)%bool; [reflexivity|].
    now destruct (negb _). }
  split; [exact Hbad|].
  assert (Hne : s <> "").
  { intros ->. cbn in Hs. subst r. revert Hr. unfold handlers.reservedPaths.
    cbn [In]. intros H.
    repeat (destruct H as [H|H]; [discriminate H|]). contradiction. }
  unfold handlers.validateShortPath.
  rewrite bool_decide_eq_false_2 by exact Hne. now rewrite Hbad, Hres.
Qed.

(** X18. The list handler calls the store with a page of at least 1 and
    a limit between 1 and 100, a page below 1 being replaced by 1 and a
    limit outside 1..100 by 10; when [(page - 1) * limit] fits in an int,
    the statements sent are the count and the page selection with that
    product as OFFSET. *)
Theorem ListURLs_store_call (page limit : option string) (w : World) :
  let p0 := fst (strconv_Atoi (default "1" page)) in
  let l0 := fst (strconv_Atoi (default "10" limit)) in
  let p := if p0 <? 1 then 1 else p0 in
  let l := if (l0 <? 1) || (100 <? l0) then 10 else l0 in
  1 <= p <= int_max /\ 1 <= l <= 100 /\
  handlers.ListURLs page limit w =
    (match fst (database.ListURLs p l w) with
     | Err _ =>
         handlers.JSONError handlers.StatusInternalServerError
           "failed to list URLs"
     | Ok result => handlers.JSONList handlers.StatusOK result
     end, snd (database.ListURLs p l w)) /\
  ((p - 1) * l <= int_max ->
   next_fault w = None ->
   log (snd (handlers.ListURLs page limit w)) =
     (log w ++ [SqlCount; SqlSelectPage l ((p - 1) * l)])%list /\
   0 <= (p - 1) * l).
Proof.
  cbv zeta.
  set (p0 := fst (strconv_Atoi (default "1" page))).
  set (l0 := fst (strconv_Atoi (default "10" limit))).
  set (p := if p0 <? 1 then 1 else p0).
  set (l := if (l0 <? 1) || (100 <? l0) then 10 else l0).
  assert (Hp : 1 <= p <= int_max).
  { pose proof (strconv_Atoi_range (default "1" page)) as H.
    fold p0 in H. subst p. unfold int_max in *.
    destruct (Z.ltb_spec p0 1); lia. }
  assert (Hl : 1 <= l <= 100).
  { subst l. destruct (Z.ltb_spec l0 1), (Z.ltb_spec 100 l0); cbn [orb]; lia. }
  assert (Heq : handlers.ListURLs page limit w =
    (match fst (database.ListURLs p l w) with
     | Err _ =>
         handlers.JSONError handlers.StatusInternalServerError
           "failed to list URLs"
     | Ok result => handlers.JSONList handlers.StatusOK result
     end, snd (database.ListURLs p l w))).
  { unfold handlers.ListURLs, bind, ret. cbv zeta. fold p0 l0. fold p l.
    now destruct (database.ListURLs p l w) as [[r|e] w1]. }
  split; [exact Hp|]. split; [exact Hl|]. split; [exact Heq|].
  intros Hsmall Hf. rewrite Heq. cbn [snd].
  destruct (ListURLs_offset_small p l Hp Hl Hsmall) as [Hoff Hpos].
  split; [|exact Hpos].
  rewrite ListURLs_eq. cbv zeta. rewrite Hf, Hoff. clear Hf.
  destruct (next_fault _); [|destruct (Sql.select_page _ _ _)];
    cbn [snd]; simpl_world; now rewrite <- app_assoc.
Qed.

End Arguments.

(** ** The SQLite-compatible operations *)
Section Sqlite.

Lemma update_returns tbl t id sets :
  match Sql.update tbl t id sets with
  | Ok (o, tbl') =>
      Sql.select_by_id tbl' id = o /\ (o = None -> tbl' = tbl)
  | Err _ => True
  end.
Proof.
  destruct (Sql.select_by_id tbl id) as [old|] eqn:Eold.
  - destruct (update_spec tbl t id sets old Eold) as [H _].
    destruct (Sql.update tbl t id sets) as [[[new|] tbl']|e];
      [destruct H as (_ & H & _); now split|contradiction|exact I].
  - unfold Sql.update. now rewrite Eold.
Qed.

(** X19. While no call fails, [UpdateURLSQLite], an UPDATE followed by a
    read, agrees with [UpdateURL] and its RETURNING clause: both fail or
    both return the same record (or none), and they leave the same
    table. *)
Theorem UpdateURLSQLite_agrees (w : World) (id : UUID)
    (req : UpdateURLRequest) :
  faults w = [] ->
  rows (snd (database_sqlite.UpdateURLSQLite id req w)) =
    rows (snd (database.UpdateURL id req w)) /\
  match fst (database.UpdateURL id req w),
        fst (database_sqlite.UpdateURLSQLite id req w) with
  | Ok r, Ok r' => r = r'
  | Err _, Err _ => True
  | _, _ => False
  end.
Proof.
  intros Hw. rewrite UpdateURL_eq, (next_fault_nil w Hw). cbv zeta.
  unfold database_sqlite.UpdateURLSQLite.
  destruct w as [tbl rd fs en us t dr lg]. cbn in Hw. subst fs.
  unfold bind, trace, call, clock, get_rows, put_rows, ret, after_clock.
  simpl_world.
  pose proof (update_returns tbl t id (database.update_sets req)) as Hret.
  destruct dr as [|d ds]; simpl_world;
    destruct (Sql.update tbl t id (database.update_sets req))
      as [[[u|] tbl']|e];
    rewrite ?GetURLByID_eq; cbn [fst snd]; simpl_world;
    try match type of Hret with
        | _ /\ _ => destruct Hret as [Hret Hsame]; rewrite Hret
        end; auto.
Qed.

End Sqlite.

(** ** Instances *)
Section Instances.

Lemma sample_unique_keys : unique_keys (rows Sample.world).
Proof. split; apply (bool_decide_unpack _); vm_compute; exact I. Defined.

Lemma CreateURL_generated_witness :
  (cShortPath Sample2.create_auto = None \/
   cShortPath Sample2.create_auto = Some "") /\
  exists url w',
    database.CreateURL Sample2.create_auto Sample.world = (Ok url, w') /\
    (6 <= String.length (ShortPath url) <= 15)%nat.
Proof.
  split; [now left|].
  destruct (database.CreateURL Sample2.create_auto Sample.world)
    as [[url|e] w'] eqn:E; [|vm_compute in E; discriminate E].
  exists url, w'. split; [reflexivity|].
  exact (proj1 (CreateURL_generated Sample.world w' Sample2.create_auto url
                  (or_introl eq_refl) E)).
Defined.

Lemma handlers_keep_unique_keys_witness :
  unique_keys (rows Sample.world) /\
  unique_keys
    (rows (snd (handlers.UpdateURL (Ok Sample.id2) (Ok Sample2.rename_promo)
                  Sample.world))).
Proof.
  split; [exact sample_unique_keys|].
  destruct handlers_keep_unique_keys as (_ & _ & _ & Hu & _).
  exact (Hu (Ok Sample.id2) (Ok Sample2.rename_promo) Sample.world
           sample_unique_keys).
Defined.


Lemma CreateURL_taken_path_witness :
  (cShortPath Sample.create_promo = Some "promo" /\
   handlers.isValidShortPath "promo" = true /\
   Sql.exists_short_path (rows Sample.world) "promo" = true /\
   next_fault Sample.world = None) /\
  fst (handlers.CreateURL (Ok Sample.create_promo) Sample.world) =
    handlers.JSONError handlers.StatusConflict "short path already exists".
Proof.
  split; [repeat split|].
  destruct (CreateURL_taken_path Sample.create_promo "promo" Sample.world
              eq_refl eq_refl eq_refl eq_refl) as (w' & H & _).
  now rewrite H.
Defined.

Lemma CreateURL_then_cached_reads_witness :
  exists url w1,
    (faults Sample.world = [] /\
     handlers.CreateURL (Ok Sample2.create_fresh) Sample.world =
       (handlers.JSONURL handlers.StatusCreated url, w1)) /\
    redis w1 !! redis.url_key (ShortPath url) = Some (Some url).
Proof.
  destruct (handlers.CreateURL (Ok Sample2.create_fresh) Sample.world)
    as [resp w1] eqn:E.
  assert (Hresp : exists url,
            resp = handlers.JSONURL handlers.StatusCreated url).
  { pose proof E as E'. vm_compute in E'. injection E' as <- _. eauto. }
  destruct Hresp as [url ->].
  exists url, w1. split; [now split|].
  exact (proj1 (CreateURL_then_cached_reads Sample2.create_fresh
                  Sample.world w1 url eq_refl E)).
Defined.

Lemma DeleteURL_then_not_found_witness :
  exists w1,
    (unique_keys (rows Sample.world) /\
     faults Sample.world = [] /\
     handlers.DeleteURL (Ok Sample.id2) Sample.world =
       (handlers.Status handlers.StatusNoContent, w1)) /\
    Sql.select_by_id (rows Sample.world) Sample.id2 = Some Sample.rec2.
Proof.
  destruct (handlers.DeleteURL (Ok Sample.id2) Sample.world)
    as [resp w1] eqn:E.
  assert (Hresp : resp = handlers.Status handlers.StatusNoContent).
  { pose proof E as E'. vm_compute in E'. now injection E' as <- _. }
  subst resp. exists w1.
  split; [exact (conj sample_unique_keys (conj eq_refl eq_refl))|].
  destruct (DeleteURL_then_not_found Sample.world w1 Sample.id2
              sample_unique_keys eq_refl E) as (url & Hsel & _).
  reflexivity.
Defined.


Lemma ListURLs_page_witness :
  exists resp w1,
    database.ListURLs 1 2 Sample.world = (Ok resp, w1) /\
    (length (URLs resp) <= 2)%nat /\
    StronglySorted newer_first (URLs resp).
Proof.
  destruct (database.ListURLs 1 2 Sample.world) as [[resp|e] w1] eqn:E;
    [|vm_compute in E; discriminate E].
  exists resp, w1. split; [reflexivity|].
  destruct (ListURLs_page 1 2 Sample.world w1 resp E) as (Hl & _ & Hs & _).
  split; [exact Hl|exact Hs].
Defined.





Lemma DeleteURL_store_witness :
  next_fault Sample.world = None /\
  fst (database.DeleteURL Sample.unknown_id Sample.world)
    = Some "URL not found" /\
  fst (database.DeleteURL Sample.id1 Sample.world) = None.
Proof.
  split; [reflexivity|]. split.
  - exact (proj1 (proj1 (DeleteURL_store Sample.world Sample.unknown_id
                           eq_refl) eq_refl)).
  - exact (proj1 (proj2 (DeleteURL_store Sample.world Sample.id1 eq_refl)
                    Sample.rec1 eq_refl)).
Defined.

Lemma cache_round_trip_witness :
  faults Sample.world = [] /\
  fst (redis.GetURL "promo"
         (snd (redis.SetURL "promo" (Some Sample.rec2) Sample.world)))
    = Ok (Some Sample.rec2).
Proof.
  split; [reflexivity|].
  exact (proj1 (cache_round_trip Sample.world "promo"
                  (uuid_String Sample.id2) Sample.rec2 eq_refl)).
Defined.

Lemma reserved_in_any_case_witness :
  (In "api" handlers.reservedPaths /\ strings_ToLower "API" = "api") /\
  handlers.isValidShortPath "API" = false.
Proof.
  assert (Hin : In "api" handlers.reservedPaths) by (now left).
  split; [now split|].
  exact (proj1 (reserved_in_any_case "API" "api" Hin eq_refl)).
Defined.

Lemma UpdateURLSQLite_agrees_witness :
  faults Sample.world = [] /\
  rows (snd (database_sqlite.UpdateURLSQLite Sample.id1 Sample.title_only
               Sample.world)) =
  rows (snd (database.UpdateURL Sample.id1 Sample.title_only Sample.world)).
Proof.
  split; [reflexivity|].
  exact (proj1 (UpdateURLSQLite_agrees Sample.world Sample.id1
                  Sample.title_only eq_refl)).
Defined.

End Instances.
